(** * F1 driver style analyzer: the metric pipeline of [src/app.py]

    The four telemetry metrics, the per-driver profiling step and the
    comparison step of [main], embedded as Rocq functions.

    Numbers are the program's own: a Python [float] (and a NumPy [float64])
    is an IEEE-754 binary64 value, here a primitive [float], so [nan],
    the infinities and the comparison rules of pandas ([nan < 0] is false,
    [nan != 0] is true) are those the code runs with.  The [Time] column is
    [timedelta64[ns]], an integer count of nanoseconds, and [nGear] is an
    integer column; their differences are exact integers.  The reductions
    are those of pandas on NumPy, without the optional bottleneck
    accelerator: [mean] and [std] put 0.0 in the place of the missing
    values and add the array up by NumPy's pairwise summation. *)

From Stdlib Require Import Floats ZArith Bool String List Lia Permutation.
Import ListNotations.

Set Warnings "-inexact-float".
Local Open Scope float_scope.

(** ** Python outcomes: a value returned or an exception raised *)

Inductive exn : Type :=
  | KeyError        (* a column that the frame does not have *)
  | IndexError      (* positional indexer out of bounds *)
  | AttributeError  (* attribute access on [None] *)
  | TypeError       (* unpacking a non-iterable *)
  | OverflowError   (* a Timedelta outside the int64 range *)
  | ProviderError.  (* any fault raised inside the telemetry provider *)

Inductive outcome (A : Type) : Type :=
  | Return (a : A)
  | Raise (e : exn).

Arguments Return {A} a.
Arguments Raise {A} e.

(** ** The telemetry frame *)

Inductive column : Type := cTime | cSpeed | cThrottle | cBrake | cnGear.

Definition column_eqb (a b : column) : bool :=
  match a, b with
  | cTime, cTime | cSpeed, cSpeed | cThrottle, cThrottle
  | cBrake, cBrake | cnGear, cnGear => true
  | _, _ => false
  end.

(** One row of the frame.  [Time] is in nanoseconds. *)
Record reading : Type := mkReading {
  Time : Z;
  Speed : float;
  Throttle : float;
  Brake : bool;
  nGear : Z
}.

(** A [DataFrame]: the columns it carries and its rows.  Every column has
    one entry per row, as in pandas. *)
Record DataFrame : Type := mkFrame {
  columns : list column;
  rows : list reading
}.

Definition all_columns : list column := [cTime; cSpeed; cThrottle; cBrake; cnGear].

(** A frame with all five telemetry columns. *)
Definition frame_of (rs : list reading) : DataFrame := mkFrame all_columns rs.

Definition has_column (df : DataFrame) (c : column) : bool :=
  existsb (column_eqb c) (columns df).

(** [DataFrame.empty]: some axis has length zero. *)
Definition df_empty (df : DataFrame) : bool :=
  match columns df, rows df with
  | [], _ | _, [] => true
  | _, _ => false
  end.

(** ** Computations over the telemetry object

    A metric receives the telemetry object and may read or write it and may
    raise; the object after the call is part of the result. *)

Definition M (A : Type) : Type := DataFrame -> outcome A * DataFrame.

Definition ret {A} (a : A) : M A := fun df => (Return a, df).

Definition raise {A} (e : exn) : M A := fun df => (Raise e, df).

Definition bind {A B} (m : M A) (k : A -> M B) : M B :=
  fun df =>
    match m df with
    | (Return a, df') => k a df'
    | (Raise e, df') => (Raise e, df')
    end.

(** [try: body except: handler] with a bare [except]. *)
Definition try_except {A} (body handler : M A) : M A :=
  fun df =>
    match body df with
    | (Return a, df') => (Return a, df')
    | (Raise _, df') => handler df'
    end.

Notation "x <- m ;; k" := (bind m (fun x => k))
  (at level 61, m at next level, right associativity).

(** [telemetry[c]]: the column as a series, [KeyError] if it is absent. *)
Definition getitem {A} (c : column) (field : reading -> A) : M (list A) :=
  fun df =>
    if has_column df c then (Return (map field (rows df)), df)
    else (Raise KeyError, df).

(** [telemetry[c] = values]: replaces (or adds) a column.  None of the metric
    functions calls it; it is what a write to the frame would be. *)
Definition setitem_Speed (values : list float) : M unit :=
  fun df =>
    let put r v := mkReading (Time r) v (Throttle r) (Brake r) (nGear r) in
    (Return tt,
     mkFrame (if has_column df cSpeed then columns df else columns df ++ [cSpeed])
             (map (fun rv => put (fst rv) (snd rv)) (combine (rows df) values))).

(** ** Series operations *)

(** Integer to float64 conversion (int64 range). *)
Definition of_Z (z : Z) : float :=
  match z with
  | Z0 => 0
  | Zpos _ => of_uint63 (Uint63.of_Z z)
  | Zneg p => - of_uint63 (Uint63.of_Z (Zpos p))
  end.

Definition of_nat (n : nat) : float := of_Z (Z.of_nat n).

Section Diff.
Context {A B : Type} (na : B) (sub : A -> A -> B).

Fixpoint diff_from (prev : A) (l : list A) : list B :=
  match l with
  | [] => []
  | x :: t => sub x prev :: diff_from x t
  end.

(** [Series.diff()]: missing at the first position, then each entry minus
    the one before it. *)
Definition diff_with (l : list A) : list B :=
  match l with
  | [] => []
  | x :: t => na :: diff_from x t
  end.

End Diff.

(** [diff] of a float column. *)
Definition diff : list float -> list float := diff_with nan PrimFloat.sub.

(** [diff] of an integer or timedelta column: the entries are exact integer
    differences, [None] is the missing value ([NaN], [NaT]). *)
Definition diff_int : list Z -> list (option Z) :=
  diff_with None (fun x y => Some (x - y)%Z).

(** [!= 0] on the float64 series that [diff] of an integer column is: the
    missing value compares unequal to everything. *)
Definition ne0 (d : option Z) : bool :=
  match d with
  | None => true
  | Some z => negb (z =? 0)%Z
  end.

(** [.dt.total_seconds()] of a timedelta series: the nanoseconds over
    1e9. *)
Definition total_seconds (ns : Z) : float := of_Z ns / 1e9.

Definition dt_total_seconds (d : option Z) : float :=
  match d with
  | None => nan
  | Some ns => total_seconds ns
  end.

(** A [Timedelta] holds an int64 count of nanoseconds; the least int64 is
    [NaT]. *)
Definition int64_min : Z := - 2 ^ 63.
Definition int64_max : Z := 2 ^ 63 - 1.

(** [Timedelta - Timedelta]: the exact difference when it fits, [NaT]
    ([None]) when it is the least int64, [OverflowError] beyond the range. *)
Definition timedelta_sub (a b : Z) : outcome (option Z) :=
  let d := (a - b)%Z in
  if (d =? int64_min)%Z then Return None
  else if ((int64_min <? d) && (d <=? int64_max))%Z then Return (Some d)
  else Raise OverflowError.

(** The scalar [Timedelta.total_seconds()]:
    [days * 24 * 3600 + seconds + microseconds / 1_000_000], the components
    taken with floor division, so that the part below one microsecond is
    dropped; [NaT] gives NaN. *)
Definition Timedelta_total_seconds (ns : Z) : float :=
  let whole_seconds := (ns / 1000000000)%Z in
  let microseconds := ((ns mod 1000000000) / 1000)%Z in
  of_Z whole_seconds + of_Z microseconds / 1000000.

Definition scalar_total_seconds (d : option Z) : float :=
  match d with
  | None => nan
  | Some ns => Timedelta_total_seconds ns
  end.

(** Element-wise combination of two series on the same index. *)
Fixpoint zip_with {A B C} (f : A -> B -> C) (l : list A) (l' : list B) : list C :=
  match l, l' with
  | x :: t, y :: t' => f x y :: zip_with f t t'
  | _, _ => []
  end.

(** [mask.any()] *)
Definition any (mask : list bool) : bool := existsb (fun b => b) mask.

(** [(mask).sum()] *)
Definition count_true (mask : list bool) : Z :=
  Z.of_nat (length (filter (fun b => b) mask)).

(** [series[mask]] *)
Fixpoint select {A} (l : list A) (mask : list bool) : list A :=
  match l, mask with
  | x :: t, b :: m => if b then x :: select t m else select t m
  | _, _ => []
  end.

(** [series.iloc[i]], negative positions counting from the end. *)
Definition iloc {A} (l : list A) (i : Z) : outcome A :=
  let n := Z.of_nat (length l) in
  let j := if (i <? 0)%Z then (n + i)%Z else i in
  if ((0 <=? j) && (j <? n))%Z then
    match nth_error l (Z.to_nat j) with
    | Some x => Return x
    | None => Raise IndexError
    end
  else Raise IndexError.

Definition lift {A} (o : outcome A) : M A := fun df => (o, df).

(** The values of a series that are present (pandas reductions skip the
    missing ones). *)
Definition dropna (l : list float) : list float :=
  filter (fun x => negb (is_nan x)) l.

(** *** NumPy's sum of a float64 array ([add.reduce], pairwise summation)

    Fewer than eight values are added one after the other, starting from
    -0.0.  From eight values on, eight accumulators take the values in
    turn, eight at a time; they are then added two by two and the values
    left over, fewer than eight, are added one after the other. *)
Fixpoint unrolled_sum (r0 r1 r2 r3 r4 r5 r6 r7 : float) (a : list float) : float :=
  match a with
  | a0 :: a1 :: a2 :: a3 :: a4 :: a5 :: a6 :: a7 :: rest =>
    unrolled_sum (r0 + a0) (r1 + a1) (r2 + a2) (r3 + a3)
                 (r4 + a4) (r5 + a5) (r6 + a6) (r7 + a7) rest
  | _ =>
    fold_left PrimFloat.add a
      (((r0 + r1) + (r2 + r3)) + ((r4 + r5) + (r6 + r7)))
  end.

Definition block_sum (a : list float) : float :=
  match a with
  | a0 :: a1 :: a2 :: a3 :: a4 :: a5 :: a6 :: a7 :: rest =>
    unrolled_sum a0 a1 a2 a3 a4 a5 a6 a7 rest
  | _ => fold_left PrimFloat.add a neg_zero
  end.

Definition PW_BLOCKSIZE : nat := 128.

(** More than [PW_BLOCKSIZE] values are split in two, the first part a
    multiple of eight, and the sums of the two parts are added.  [depth]
    bounds the number of splits; the length of the array is enough. *)
Fixpoint pairwise_sum (depth : nat) (a : list float) : float :=
  let n := length a in
  match depth with
  | S depth' =>
    if (n <=? PW_BLOCKSIZE)%nat then block_sum a
    else
      let n2 := (n / 2 - (n / 2) mod 8)%nat in
      pairwise_sum depth' (firstn n2 a) + pairwise_sum depth' (skipn n2 a)
  | O => block_sum a
  end.

(** [values.sum()]: 0.0 for no value; otherwise the reduction starts from
    -0.0 and adds the pairwise sum of the whole array. *)
Definition fsum (l : list float) : float :=
  match l with
  | [] => 0
  | _ => neg_zero + pairwise_sum (length l) l
  end.

(** [np.putmask(values, mask, v)] *)
Definition putmask (values : list float) (mask : list bool) (v : float)
  : list float :=
  zip_with (fun x (m : bool) => if m then v else x) values mask.

(** [isna(values)] *)
Definition isna (values : list float) : list bool := map is_nan values.

(** The number of values that are not missing:
    [values.shape[0] - mask.sum()]. *)
Definition count_present (values : list float) : nat :=
  length values - length (filter (fun b : bool => b) (isna values)).

(** [Series.mean()]: missing values count 0.0 in the sum and are left out
    of the count. *)
Definition mean (l : list float) : float :=
  let mask := isna l in
  let count := count_present l in
  let values := putmask l mask 0 in
  let the_sum := fsum values in
  if (0 <? count)%nat then the_sum / of_nat count else nan.

(** [Series.std()], [ddof = 1]: NaN when fewer than two values are
    present; the variance is taken in two passes. *)
Definition std (l : list float) : float :=
  let mask := isna l in
  let count := count_present l in
  if (count <=? 1)%nat then nan
  else
    let values := putmask l mask 0 in
    let avg := fsum values / of_nat count in
    let sqr := putmask (map (fun x => (avg - x) * (avg - x)) values) mask 0 in
    sqrt (fsum sqr / of_nat (count - 1)).

(** ** The four metrics (app.py, lines 84-137) *)

(** [(telemetry['Brake'] > 0) & (telemetry['Speed'].diff() < 0)]; a boolean
    [Brake] compares as 0 or 1. *)
Definition braking_mask_of (brake : list bool) (speed : list float) : list bool :=
  zip_with andb (map (fun b => (0 <? Z.b2z b)%Z) brake)
                (map (fun d => d <? 0) (diff speed)).

(** [(telemetry['Throttle'] < 50) & (abs(telemetry['Speed'].diff()) > 1)] *)
Definition corner_mask_of (throttle speed : list float) : list bool :=
  zip_with andb (map (fun t => t <? 50) throttle)
                (map (fun d => 1 <? abs d) (diff speed)).

(** [(telemetry['nGear'].diff() != 0).sum()] *)
Definition gear_changes_of (gear : list Z) : Z :=
  count_true (map ne0 (diff_int gear)).

Definition braking_aggressiveness_body : M float :=
  brake <- getitem cBrake Brake ;;
  speed <- getitem cSpeed Speed ;;
  let braking_mask := braking_mask_of brake speed in
  if negb (any braking_mask) then ret 0
  else
    speed' <- getitem cSpeed Speed ;;
    let speed_ms := map (fun s => s / 3.6) speed' in
    time <- getitem cTime Time ;;
    let acceleration :=
      zip_with PrimFloat.div (diff speed_ms) (map dt_total_seconds (diff_int time)) in
    let braking_decel := map PrimFloat.opp (select acceleration braking_mask) in
    let braking_g_force := map (fun x => x / 9.81) braking_decel in
    ret (mean braking_g_force).

Definition calculate_braking_aggressiveness : M float :=
  try_except braking_aggressiveness_body (ret 0).

Definition throttle_smoothness_body : M float :=
  throttle <- getitem cThrottle Throttle ;;
  let throttle_changes := map abs (diff throttle) in
  ret (std throttle_changes).

Definition calculate_throttle_smoothness : M float :=
  try_except throttle_smoothness_body (ret 0).

Definition cornering_consistency_body : M float :=
  throttle <- getitem cThrottle Throttle ;;
  speed <- getitem cSpeed Speed ;;
  let corner_mask := corner_mask_of throttle speed in
  if negb (any corner_mask) then ret 0
  else
    speed' <- getitem cSpeed Speed ;;
    let corner_speeds := select speed' corner_mask in
    ret (std corner_speeds).

Definition calculate_cornering_consistency : M float :=
  try_except cornering_consistency_body (ret 0).

Definition gear_shift_frequency_body : M float :=
  gear <- getitem cnGear nGear ;;
  let gear_changes := gear_changes_of gear in
  time <- getitem cTime Time ;;
  last <- lift (iloc time (-1)) ;;
  time' <- getitem cTime Time ;;
  first <- lift (iloc time' 0) ;;
  span <- lift (timedelta_sub last first) ;;
  let total_time_minutes := scalar_total_seconds span / 60 in
  if 0 <? total_time_minutes then ret (of_Z gear_changes / total_time_minutes)
  else ret 0.

Definition calculate_gear_shift_frequency : M float :=
  try_except gear_shift_frequency_body (ret 0).

(** The value a metric hands back and the telemetry object it leaves. *)
Definition result {A} (m : M A) (df : DataFrame) : outcome A := fst (m df).
Definition after {A} (m : M A) (df : DataFrame) : DataFrame := snd (m df).

(** ** The telemetry provider (FastF1), through the calls made on it

    The provider's objects are given by what the source observes of them:
    [.empty], [pick_fastest()] and [get_telemetry()], each of which may
    raise. *)

(** A lap record: its [LapTime] (nanoseconds, [None] when not set), its
    [.empty] and the outcome of [get_telemetry()]. *)
Record Lap : Type := mkLap {
  LapTime : option Z;
  lap_empty : bool;
  get_telemetry : outcome DataFrame
}.

(** The laps of one driver: the lap records (its [.empty] is "no record")
    and the outcome of [pick_fastest()], a lap record or [None]. *)
Record Laps : Type := mkLaps {
  lap_records : list Lap;
  pick_fastest : outcome (option Lap)
}.

Definition laps_empty (d : Laps) : bool :=
  match lap_records d with
  | [] => true
  | _ => false
  end.

(** [session.laps.pick_driver(driver_code)] *)
Definition Session : Type := string -> outcome Laps.

(** What [get_driver_telemetry] hands back: the bare [None] of its two early
    returns, or a pair (the pair [None, None] of its [except] branch
    included). *)
Inductive telemetry_result : Type :=
  | PyNone
  | PyPair (telemetry : option DataFrame) (lap : option Lap).

(** The [try] block of [get_driver_telemetry] (app.py, lines 69-79). *)
Definition get_driver_telemetry_body (session : Session) (driver_code : string)
  : outcome telemetry_result :=
  match session driver_code with
  | Raise e => Raise e
  | Return driver =>
    if laps_empty driver then Return PyNone
    else
      match pick_fastest driver with
      | Raise e => Raise e
      | Return None => Raise AttributeError
      | Return (Some fastest_lap) =>
        if lap_empty fastest_lap then Return PyNone
        else
          match get_telemetry fastest_lap with
          | Raise e => Raise e
          | Return telemetry => Return (PyPair (Some telemetry) (Some fastest_lap))
          end
      end
  end.

(** [get_driver_telemetry] (app.py, lines 66-82); the message shown by
    [st.error] in the [except] branch is display only. *)
Definition get_driver_telemetry (session : Session) (driver_code : string)
  : telemetry_result :=
  match get_driver_telemetry_body session driver_code with
  | Return v => v
  | Raise _ => PyPair None None
  end.

(** ** Style profiles *)

Inductive metric_key : Type :=
  | braking_aggressiveness
  | throttle_smoothness
  | cornering_consistency
  | gear_shift_frequency.

(** The [metrics] dictionary: one float per key. *)
Record Metrics : Type := mkMetrics {
  m_braking_aggressiveness : float;
  m_throttle_smoothness : float;
  m_cornering_consistency : float;
  m_gear_shift_frequency : float
}.

(** [metrics[key]] *)
Definition lookup (m : Metrics) (k : metric_key) : float :=
  match k with
  | braking_aggressiveness => m_braking_aggressiveness m
  | throttle_smoothness => m_throttle_smoothness m
  | cornering_consistency => m_cornering_consistency m
  | gear_shift_frequency => m_gear_shift_frequency m
  end.

(** The [metrics] dictionary of lines 146-151: the four metrics, in order,
    on the same telemetry object. *)
Definition compute_metrics : M Metrics :=
  b <- calculate_braking_aggressiveness ;;
  t <- calculate_throttle_smoothness ;;
  c <- calculate_cornering_consistency ;;
  g <- calculate_gear_shift_frequency ;;
  ret (mkMetrics b t c g).

(** [analyze_driver_style] (app.py, lines 139-153).  Unpacking the bare
    [None] raises [TypeError]; [Return None] is the function's own
    [return None]. *)
Definition analyze_driver_style (session : Session) (driver_code : string)
  : outcome (option (Metrics * option Lap)) :=
  match get_driver_telemetry session driver_code with
  | PyNone => Raise TypeError
  | PyPair telemetry lap =>
    match telemetry with
    | None => Return None
    | Some df =>
      if df_empty df then Return None
      else
        match compute_metrics df with
        | (Return metrics, _) => Return (Some (metrics, lap))
        | (Raise e, _) => Raise e
        end
    end
  end.

(** ** The comparison step of [main] (app.py, lines 309-371) *)

Inductive delta_color : Type := normal | inverse.

(** One [st.metric] card with the caption under it; values are the numbers
    before their two-decimal formatting. *)
Record metric_card : Type := mkCard {
  card_label : string;
  card_value : float;
  card_delta : float;
  card_delta_color : delta_color;
  caption_driver : string;
  caption_value : float
}.

Record Comparison : Type := mkComparison {
  col1 : metric_card;
  col2 : metric_card;
  col3 : metric_card;
  col4 : metric_card;
  braking_leader : string;
  smooth_leader : string
}.

Definition compare_drivers (driver1 driver2 : string)
    (driver1_metrics driver2_metrics : Metrics) : Comparison :=
  mkComparison
    (mkCard "Braking Aggressiveness (G)"
       (lookup driver1_metrics braking_aggressiveness)
       (lookup driver1_metrics braking_aggressiveness
        - lookup driver2_metrics braking_aggressiveness)
       normal
       driver2 (lookup driver2_metrics braking_aggressiveness))
    (mkCard "Throttle Smoothness"
       (lookup driver1_metrics throttle_smoothness)
       (lookup driver1_metrics throttle_smoothness
        - lookup driver2_metrics throttle_smoothness)
       inverse
       driver2 (lookup driver2_metrics throttle_smoothness))
    (mkCard "Cornering Consistency"
       (lookup driver1_metrics cornering_consistency)
       (lookup driver1_metrics cornering_consistency
        - lookup driver2_metrics cornering_consistency)
       inverse
       driver2 (lookup driver2_metrics cornering_consistency))
    (mkCard "Gear Shifts/Min"
       (lookup driver1_metrics gear_shift_frequency)
       (lookup driver1_metrics gear_shift_frequency
        - lookup driver2_metrics gear_shift_frequency)
       normal
       driver2 (lookup driver2_metrics gear_shift_frequency))
    (if lookup driver2_metrics braking_aggressiveness
        <? lookup driver1_metrics braking_aggressiveness
     then driver1 else driver2)
    (if lookup driver1_metrics throttle_smoothness
        <? lookup driver2_metrics throttle_smoothness
     then driver1 else driver2).

(** The card of a metric and its delta. *)
Definition card_of (c : Comparison) (k : metric_key) : metric_card :=
  match k with
  | braking_aggressiveness => col1 c
  | throttle_smoothness => col2 c
  | cornering_consistency => col3 c
  | gear_shift_frequency => col4 c
  end.

Definition delta_of (c : Comparison) (k : metric_key) : float :=
  card_delta (card_of c k).

(** How [st.metric] renders a delta.  The delta is passed as the text
    [f"{d:.2f}"], and a text that starts with "-" is shown as a decrease;
    the text of a float starts with "-" exactly when its sign bit is set
    and it is not NaN.  Under [normal] a decrease is red and anything else
    green; under [inverse] the colours are swapped.  Green marks the first
    driver as ahead on that metric, red as behind. *)
Definition delta_is_negative (d : float) : bool := get_sign d.

Inductive indicator : Type := green | red.

Definition card_indicator (card : metric_card) : indicator :=
  match card_delta_color card, delta_is_negative (card_delta card) with
  | normal, false | inverse, true => green
  | normal, true | inverse, false => red
  end.

(** ** Auxiliary notions for the statements *)

(** The metric function behind each key of the profile, its [try] block,
    and the columns that block asks the frame for. *)
Definition metric_of (k : metric_key) : M float :=
  match k with
  | braking_aggressiveness => calculate_braking_aggressiveness
  | throttle_smoothness => calculate_throttle_smoothness
  | cornering_consistency => calculate_cornering_consistency
  | gear_shift_frequency => calculate_gear_shift_frequency
  end.

Definition body_of (k : metric_key) : M float :=
  match k with
  | braking_aggressiveness => braking_aggressiveness_body
  | throttle_smoothness => throttle_smoothness_body
  | cornering_consistency => cornering_consistency_body
  | gear_shift_frequency => gear_shift_frequency_body
  end.

Definition columns_read (k : metric_key) : list column :=
  match k with
  | braking_aggressiveness => [cBrake; cSpeed; cTime]
  | throttle_smoothness => [cThrottle]
  | cornering_consistency => [cThrottle; cSpeed]
  | gear_shift_frequency => [cnGear; cTime]
  end.

(** A spec-level float that is a number (zero or finite). *)
Definition sf_finite (x : spec_float) : bool :=
  match x with
  | S754_zero _ | S754_finite _ _ _ => true
  | _ => false
  end.

(** The sign bit of a spec-level float; NaN carries none. *)
Definition sf_sign (x : spec_float) : bool :=
  match x with
  | S754_zero s | S754_infinity s | S754_finite s _ _ => s
  | S754_nan => false
  end.

(** The value of a spec-level number, times 2^1074: an integer for every
    binary64 number. *)
Definition scaled (x : spec_float) : Z :=
  match x with
  | S754_finite s m e => cond_Zopp s (Z.pos m * 2 ^ (e + 1074))
  | _ => 0%Z
  end.

(** The microseconds of a [Timedelta] over 1e6 lie in [0, 1): a check of
    one count, and of all counts in a block of 2^k. *)
Definition fraction_ok (us : Z) : bool :=
  (1000000 <=? us)%Z
  || ((0 <=? of_Z us / 1000000) && (of_Z us / 1000000 <? 1)).

Fixpoint all_from (k : nat) (lo : Z) : bool :=
  match k with
  | O => fraction_ok lo
  | S k' => all_from k' lo && all_from k' (lo + 2 ^ Z.of_nat k')%Z
  end.

(** A computation that leaves the telemetry object as it found it. *)
Definition read_only {A} (m : M A) : Prop := forall df, after m df = df.

(** *** The specification's wording of throttle smoothness (spec 4.1)

    "The first difference of throttle between consecutive samples, absolute
    value; the sample standard deviation (with Bessel's correction, divide
    by N-1) of that series; a series of length < 2 returns 0.0." *)

Definition consecutive_differences (l : list float) : list float :=
  match l with
  | [] => []
  | x :: t => diff_from PrimFloat.sub x t
  end.

Definition sample_std (xs : list float) : float :=
  let n := length xs in
  let mean := fsum xs / of_nat n in
  sqrt (fsum (map (fun x => (x - mean) * (x - mean)) xs) / of_nat (n - 1)).

Definition spec_throttle_smoothness (throttle : list float) : float :=
  let changes := map abs (consecutive_differences throttle) in
  if (length changes <? 2)%nat then 0 else sample_std changes.

(** A sum of the values [xs] in binary64: every value is added once, in
    some order and grouping of the additions.  An empty group counts 0.0,
    or -0.0, the identity of the addition. *)
Inductive sum_of : list float -> float -> Prop :=
  | sum_of_nothing : sum_of [] 0
  | sum_of_identity : sum_of [] neg_zero
  | sum_of_one x : sum_of [x] x
  | sum_of_add xs ys a b :
      sum_of xs a -> sum_of ys b -> sum_of (xs ++ ys) (a + b)
  | sum_of_perm xs ys a : Permutation xs ys -> sum_of xs a -> sum_of ys a.

(** [v] is a sample standard deviation of [xs], with Bessel's correction:
    the mean is a sum of the values over their number N, and [v] is the
    square root of a sum of the squared deviations over N - 1. *)
Definition is_sample_std (xs : list float) (v : float) : Prop :=
  exists total squares : float,
    sum_of xs total /\
    sum_of (map (fun x => (x - total / of_nat (length xs))
                          * (x - total / of_nat (length xs))) xs) squares /\
    v = sqrt (squares / of_nat (length xs - 1)).

(** [v] is a mean of [xs]: a sum of the values over their number. *)
Definition is_mean (xs : list float) (v : float) : Prop :=
  exists total : float, sum_of xs total /\ v = total / of_nat (length xs).

(** The decelerations in G at the braking instants of a lap, the series
    whose mean [calculate_braking_aggressiveness] returns. *)
Definition braking_g_forces (rs : list reading) : list float :=
  let speed_ms := map (fun s => s / 3.6) (map Speed rs) in
  let acceleration :=
    zip_with PrimFloat.div (diff speed_ms)
             (map dt_total_seconds (diff_int (map Time rs))) in
  map (fun x => x / 9.81)
      (map PrimFloat.opp
           (select acceleration (braking_mask_of (map Brake rs) (map Speed rs)))).

(** The speeds at the cornering instants of a lap. *)
Definition corner_speeds_of (rs : list reading) : list float :=
  select (map Speed rs) (corner_mask_of (map Throttle rs) (map Speed rs)).

(** A series with missing entries: the values that are present, and the
    array a reduction adds up (0.0 in the place of a missing entry). *)
Definition present (s : list (option float)) : list float :=
  flat_map (fun o => match o with Some x => [x] | None => [] end) s.

Definition filled (s : list (option float)) : list float :=
  map (fun o => match o with Some x => x | None => 0 end) s.

(** The series of [f x] for the entries [x] of [l], missing where [l] is. *)
Definition series_with (f : float -> float) (l : list float)
  : list (option float) :=
  map (fun x => if is_nan x then None else Some (f x)) l.

(** ** Concrete inputs *)

(** The five-sample lap of the specification's scenario. *)
Definition scenario_lap : DataFrame :=
  frame_of
    [ mkReading 0 100 0 true 3;
      mkReading 200000000 95 0 true 3;
      mkReading 400000000 90 0 true 3;
      mkReading 600000000 92 50 false 4;
      mkReading 800000000 92 80 false 4 ].

(** No reading, and a single reading. *)
Definition no_reading : DataFrame := frame_of [].
Definition one_reading : DataFrame := frame_of [mkReading 0 100 30 true 3].

(** Two readings one minute apart, in third gear throughout. *)
Definition constant_gear_lap : DataFrame :=
  frame_of [ mkReading 0 100 0 false 3; mkReading 60000000000 100 0 false 3 ].

(** Two readings on the same timestamp while braking from 100 to 90 km/h. *)
Definition repeated_timestamp_lap : DataFrame :=
  frame_of [ mkReading 0 100 0 true 3; mkReading 0 90 10 true 3 ].

(** A frame without its [Speed] and [Time] columns. *)
Definition partial_frame : DataFrame :=
  mkFrame [cThrottle; cBrake; cnGear]
    [ mkReading 0 100 0 true 3; mkReading 200000000 95 20 true 3 ].

(** A timed lap carrying telemetry. *)
Definition timed_lap (telemetry : DataFrame) : Lap :=
  mkLap (Some 83456000000%Z) false (Return telemetry).

(** A session in which every driver has one timed lap and [pick_fastest()]
    finds no fastest lap ([None]). *)
Definition no_fastest_session : Session :=
  fun _ => Return (mkLaps [timed_lap scenario_lap] (Return None)).

(** A session in which the fastest lap's telemetry has no rows. *)
Definition empty_telemetry_session : Session :=
  fun _ => Return (mkLaps [timed_lap no_reading] (Return (Some (timed_lap no_reading)))).

(** The float a returned outcome carries ([nan] for a raise), for comparing
    results with [=?]. *)
Definition value_of (o : outcome float) : float :=
  match o with
  | Return v => v
  | Raise _ => nan
  end.

(** The profile computed from [one_reading]. *)
Definition single_reading_profile : Metrics := mkMetrics 0 nan 0 0.

(** The profile computed from [repeated_timestamp_lap]. *)
Definition repeated_timestamp_profile : Metrics := mkMetrics infinity nan nan 0.

(** A profile of plain numbers, put in both slots for a tie. *)
Definition tied_profile : Metrics := mkMetrics 1 2 3 4.

(** Two profiles that differ in every metric: the first brakes harder, is
    smoother on the throttle, more consistent in corners and shifts more. *)
Definition profile_a : Metrics := mkMetrics 1.5 2 3 40.
Definition profile_b : Metrics := mkMetrics 1 2.5 4 30.

(** ** The "Analyze Drivers" step of [main] (app.py, lines 275-357)

    What the page shows once the button is pressed: one of the two error
    messages, or the comparison with the two lap times. *)

Inductive page : Type :=
  | SameDriverError        (* "Please select two different drivers ..." *)
  | AnalysisFailedError    (* "Failed to analyze one or both drivers ..." *)
  | ComparisonPage (c : Comparison) (lap_time1 lap_time2 : option Z).

(** [st.session_state['session']] is what [load_session_data] returned
    last: a session, or [None] after a failed load.  Any attribute access
    on [None] raises [AttributeError]. *)
Definition as_session (session : option Session) : Session :=
  match session with
  | Some s => s
  | None => fun _ => Raise AttributeError
  end.

(** [lap['LapTime']]; subscripting [None] raises [TypeError]. *)
Definition getitem_LapTime (lap : option Lap) : outcome (option Z) :=
  match lap with
  | Some l => Return (LapTime l)
  | None => Raise TypeError
  end.

Definition analyze_drivers (session : option Session) (driver1 driver2 : string)
  : outcome page :=
  if String.eqb driver1 driver2 then Return SameDriverError
  else
    match analyze_driver_style (as_session session) driver1 with
    | Raise e => Raise e
    | Return driver1_result =>
      match analyze_driver_style (as_session session) driver2 with
      | Raise e => Raise e
      | Return driver2_result =>
        match driver1_result, driver2_result with
        | Some (driver1_metrics, driver1_lap), Some (driver2_metrics, driver2_lap) =>
          let c := compare_drivers driver1 driver2 driver1_metrics driver2_metrics in
          match getitem_LapTime driver1_lap with
          | Raise e => Raise e
          | Return t1 =>
            match getitem_LapTime driver2_lap with
            | Raise e => Raise e
            | Return t2 => Return (ComparisonPage c t1 t2)
            end
          end
        | _, _ => Return AnalysisFailedError
        end
      end
    end.

(** ** Further notions for the statements *)

(** The number of readings whose gear differs from the reading before. *)
Fixpoint changes_from (prev : Z) (l : list Z) : nat :=
  match l with
  | [] => 0
  | x :: t => (if (x =? prev)%Z then 0 else 1) + changes_from x t
  end.

(** Spec-level floats that are not above zero, and not below zero. *)
Definition sf_nonpos (x : spec_float) : bool :=
  match x with
  | S754_zero _ | S754_finite true _ _ | S754_infinity true => true
  | _ => false
  end.

Definition sf_nonneg (x : spec_float) : bool :=
  match x with
  | S754_zero _ | S754_finite false _ _ | S754_infinity false => true
  | _ => false
  end.

(** The profile whose entries are the four results on a frame. *)
Definition profile_of (df : DataFrame) : Metrics :=
  mkMetrics
    (value_of (result calculate_braking_aggressiveness df))
    (value_of (result calculate_throttle_smoothness df))
    (value_of (result calculate_cornering_consistency df))
    (value_of (result calculate_gear_shift_frequency df)).

(** ** Further concrete inputs *)

(** A lap coasting at constant speed on part throttle, brake never applied. *)
Definition coasting_lap : DataFrame :=
  frame_of
    [ mkReading 0 120 30 false 5;
      mkReading 200000000 120 35 false 5;
      mkReading 400000000 120 20 false 6 ].

(** A flat-out lap: throttle never below 50 while the speed changes. *)
Definition flat_out_lap : DataFrame :=
  frame_of
    [ mkReading 0 200 100 false 6;
      mkReading 200000000 205 100 false 7;
      mkReading 400000000 203 80 true 7 ].

(** A lap with exactly one cornering instant (its second reading). *)
Definition single_corner_lap : DataFrame :=
  frame_of
    [ mkReading 0 150 20 false 4;
      mkReading 200000000 140 30 false 4;
      mkReading 400000000 140 90 false 4 ].

(** A session in which every driver's fastest lap carries the scenario
    telemetry, one whose provider raises on every request, and one in which
    "HAM" has no lap at all. *)
Definition scenario_session : Session :=
  fun _ => Return (mkLaps [timed_lap scenario_lap]
                          (Return (Some (timed_lap scenario_lap)))).

Definition faulty_session : Session := fun _ => Raise ProviderError.

Definition one_driver_session : Session :=
  fun code =>
    if String.eqb code "HAM" then Return (mkLaps [] (Return None))
    else scenario_session code.

(** A profile with a missing braking value. *)
Definition missing_braking_profile : Metrics := mkMetrics nan 2 3 4.

(** ** Proof tactics *)

(** Unfolds a metric down to the monad's primitives. *)
Ltac run_metric :=
  unfold result, calculate_braking_aggressiveness, braking_aggressiveness_body,
    calculate_throttle_smoothness, throttle_smoothness_body,
    calculate_cornering_consistency, cornering_consistency_body,
    calculate_gear_shift_frequency, gear_shift_frequency_body,
    braking_mask_of, corner_mask_of, gear_changes_of,
    try_except, bind, getitem, ret, lift.

(** Case analysis on the presence of each column that is looked up. *)
Ltac case_columns :=
  repeat (cbn [columns rows fst snd];
          match goal with
          | |- context [existsb ?f ?cols] => destruct (existsb f cols)
          end);
  cbn [columns rows fst snd].

(** Evaluates a metric on a frame that has all five columns. *)
Ltac run_on_full_frame :=
  run_metric;
  cbn [has_column frame_of columns rows all_columns existsb column_eqb orb fst snd].

(** Tells two outcomes apart by a boolean test on the returned float. *)
Ltac differ_by test :=
  let H := fresh in
  intros H; apply (f_equal (fun o => test (value_of o))) in H;
  vm_compute in H; discriminate H.

(* ================================================================= *)
(** * Facts about binary64 arithmetic *)

Lemma SFcompare_refl_finite s m e :
  SFcompare (S754_finite s m e) (S754_finite s m e) = Some Eq.
Proof.
  simpl. rewrite Z.compare_refl.
  assert (H : Pos.compare_cont Eq m m = Eq) by apply Pos.compare_refl.
  rewrite H. destruct s; reflexivity.
Qed.

Lemma is_nan_spec x : is_nan x = match Prim2SF x with S754_nan => true | _ => false end.
Proof.
  unfold is_nan. rewrite FloatAxioms.eqb_spec. unfold SFeqb.
  destruct (Prim2SF x) as [s|s| |s m e].
  - reflexivity.
  - destruct s; reflexivity.
  - reflexivity.
  - rewrite SFcompare_refl_finite. reflexivity.
Qed.

Lemma is_finite_spec x : is_finite x = sf_finite (Prim2SF x).
Proof.
  unfold is_finite. rewrite is_nan_spec. unfold is_infinity.
  rewrite FloatAxioms.eqb_spec, abs_spec.
  change (Prim2SF infinity) with (S754_infinity false).
  destruct (Prim2SF x) as [s|s| |s m e]; try reflexivity.
Qed.

Lemma sub_diag_finite x : is_finite x = true -> x - x = 0.
Proof.
  intros H. rewrite is_finite_spec in H.
  apply Prim2SF_inj. rewrite sub_spec.
  change (Prim2SF 0) with (S754_zero false).
  destruct (Prim2SF x) as [s|s| |s m e]; try discriminate.
  - destruct s; reflexivity.
  - unfold SF64sub, SFsub. cbv zeta. rewrite Z.sub_diag. reflexivity.
Qed.

Lemma binary_round_opp s m e :
  binary_round prec emax (negb s) m e = SFopp (binary_round prec emax s m e).
Proof.
  unfold binary_round.
  destruct (shl_align _ _ _) as [mz ez].
  unfold binary_round_aux.
  destruct (shr_fexp _ _ _ _ _) as [mrs' e'].
  destruct (shr_fexp _ _ _ _ _) as [mrs'' e''].
  destruct (shr_m mrs''); try reflexivity.
  destruct (Z.leb _ _); reflexivity.
Qed.

Lemma binary_normalize_opp m e :
  m <> 0%Z ->
  binary_normalize prec emax (- m) e false = SFopp (binary_normalize prec emax m e false).
Proof.
  destruct m as [|p|p]; intros Hm; [congruence| |]; simpl.
  - apply (binary_round_opp false).
  - rewrite (binary_round_opp false). destruct (binary_round _ _ _ _ _); simpl; rewrite ?negb_involutive; reflexivity.
Qed.

Lemma SFsub_antisym x y :
  SF64sub x y = SFopp (SF64sub y x) \/
  (SF64sub x y = S754_zero false /\ SF64sub y x = S754_zero false).
Proof.
  destruct x as [sx|sx| |sx mx ex], y as [sy|sy| |sy my ey];
    try (destruct sx, sy; simpl; auto; fail);
    try (destruct sx; simpl; auto; fail);
    try (destruct sy; simpl; auto; fail); try (simpl; auto; fail).
  unfold SF64sub, SFsub. cbv zeta.
    rewrite (Z.min_comm ey ex).
    set (ez := Z.min ex ey).
    set (a := cond_Zopp sx _). set (b := cond_Zopp sy _).
  destruct (Z.eq_dec (a - b) 0) as [E|E].
  - right. replace (b - a)%Z with 0%Z by lia. rewrite E. auto.
  - left. replace (a - b)%Z with (- (b - a))%Z by lia.
      apply binary_normalize_opp. lia.
Qed.

Lemma SFcompare_antisym x y :
  SFcompare y x = option_map CompOpp (SFcompare x y).
Proof.
  destruct x as [sx|sx| |sx mx ex], y as [sy|sy| |sy my ey];
    try (destruct sx; reflexivity); try (destruct sy; reflexivity);
    try (destruct sx, sy; reflexivity); try reflexivity.
  simpl. rewrite (Z.compare_antisym ex ey).
  assert (H : Pos.compare_cont Eq my mx = CompOpp (Pos.compare_cont Eq mx my))
    by apply Pos.compare_antisym.
  rewrite H.
  destruct sx, sy, (ex ?= ey)%Z, (Pos.compare_cont Eq mx my); reflexivity.
Qed.

Lemma ltb_asym x y : (x <? y) = true -> (y <? x) = false.
Proof.
  rewrite !ltb_spec. unfold SFltb. rewrite (SFcompare_antisym (Prim2SF x) (Prim2SF y)).
  destruct (SFcompare (Prim2SF x) (Prim2SF y)) as [[ | | ]|]; simpl; congruence.
Qed.

Lemma ltb_irrefl x : (x <? x) = false.
Proof.
  destruct (x <? x) eqn:E; [|reflexivity].
  rewrite (ltb_asym _ _ E) in E. discriminate.
Qed.

(* shifting right keeps a non-negative mantissa non-negative *)
Lemma shr_1_nonneg mrs : (0 <= shr_m mrs)%Z -> (0 <= shr_m (shr_1 mrs))%Z.
Proof.
  destruct mrs as [m r s]. simpl.
  destruct m as [|p|p]; [simpl; lia | | lia].
  intros _. destruct p; simpl; lia.
Qed.

Lemma iter_shr_1_nonneg p : forall mrs,
  (0 <= shr_m mrs)%Z -> (0 <= shr_m (SpecFloat.iter_pos shr_1 p mrs))%Z.
Proof.
  induction p as [p IH|p IH|]; intros mrs H; simpl.
  - apply IH, IH, shr_1_nonneg, H.
  - apply IH, IH, H.
  - apply shr_1_nonneg, H.
Qed.

Lemma shr_fexp_nonneg m e l :
  (0 <= m)%Z -> (0 <= shr_m (fst (shr_fexp prec emax m e l)))%Z.
Proof.
  intros H. unfold shr_fexp, shr.
  assert (H0 : (0 <= shr_m (shr_record_of_loc m l))%Z)
    by (destruct l as [|[ | | ]]; exact H).
  destruct (_ - e)%Z; simpl; auto using iter_shr_1_nonneg.
Qed.

Lemma round_nearest_even_nonneg m l : (0 <= m)%Z -> (0 <= round_nearest_even m l)%Z.
Proof.
  intros H. destruct l as [|[ | | ]]; simpl; try lia.
  destruct (Z.even m); lia.
Qed.

Lemma binary_round_aux_not_nan s m e l :
  (0 <= m)%Z -> binary_round_aux prec emax s m e l <> S754_nan.
Proof.
  intros H. unfold binary_round_aux.
  pose proof (shr_fexp_nonneg m e l H) as H1.
  destruct (shr_fexp prec emax m e l) as [mrs' e']. simpl in H1.
  pose proof (shr_fexp_nonneg _ e' loc_Exact
                (round_nearest_even_nonneg _ (loc_of_shr_record mrs') H1)) as H2.
  destruct (shr_fexp prec emax _ e' loc_Exact) as [mrs'' e'']. simpl in H2.
  destruct (shr_m mrs''); try discriminate; [|lia].
  destruct (Z.leb _ _); discriminate.
Qed.

Lemma binary_normalize_not_nan m e : binary_normalize prec emax m e false <> S754_nan.
Proof.
  destruct m as [|p|p]; simpl; try discriminate;
    unfold binary_round; destruct (shl_align _ _ _);
    apply binary_round_aux_not_nan; lia.
Qed.

Lemma sub_finite_not_nan x y :
  is_finite x = true -> is_finite y = true -> is_nan (x - y) = false.
Proof.
  rewrite !is_finite_spec, is_nan_spec, sub_spec.
  destruct (Prim2SF x) as [sx|sx| |sx mx ex], (Prim2SF y) as [sy|sy| |sy my ey];
    try discriminate; intros _ _.
  - destruct sx, sy; reflexivity.
  - reflexivity.
  - reflexivity.
  - unfold SF64sub, SFsub. cbv zeta.
    pose proof (binary_normalize_not_nan
      (cond_Zopp sx (Z.pos (fst (shl_align mx ex (Z.min ex ey)))) -
       cond_Zopp sy (Z.pos (fst (shl_align my ey (Z.min ex ey))))) (Z.min ex ey)) as H.
    destruct (binary_normalize _ _ _ _ _); congruence.
Qed.

Lemma is_nan_abs x : is_nan (abs x) = is_nan x.
Proof.
  rewrite !is_nan_spec, abs_spec. destruct (Prim2SF x); reflexivity.
Qed.

Lemma SFmul_opp_opp u : SF64mul (SFopp u) (SFopp u) = SF64mul u u.
Proof.
  destruct u as [s|s| |s m e]; simpl; try reflexivity;
    destruct s; reflexivity.
Qed.

Lemma square_sub_swap a b : (a - b) * (a - b) = (b - a) * (b - a).
Proof.
  apply Prim2SF_inj. rewrite !mul_spec, !sub_spec.
  destruct (SFsub_antisym (Prim2SF a) (Prim2SF b)) as [H|[H1 H2]].
  - rewrite H. apply SFmul_opp_opp.
  - rewrite H1, H2. reflexivity.
Qed.

Lemma sub_antisym a b : a - b = - (b - a) \/ (a - b = 0 /\ b - a = 0).
Proof.
  destruct (SFsub_antisym (Prim2SF a) (Prim2SF b)) as [H|[H1 H2]].
  - left. apply Prim2SF_inj. now rewrite opp_spec, !sub_spec.
  - right. split; apply Prim2SF_inj; now rewrite sub_spec.
Qed.

(* ================================================================= *)
(** * Order and sign of binary64 numbers

    Every binary64 number is an integer multiple of 2^-1074; on such
    integers the comparison of the format is the comparison of values, and
    the sign of a rounded difference is the sign of the exact one. *)

Local Open Scope Z_scope.

Lemma digits2_pos_bounds (p : positive) :
  2 ^ (Z.pos (digits2_pos p) - 1) <= Z.pos p < 2 ^ Z.pos (digits2_pos p).
Proof.
  induction p as [p IH|p IH|]; simpl digits2_pos.
  - rewrite Pos2Z.inj_succ.
    replace (Z.succ (Z.pos (digits2_pos p)) - 1) with (Z.succ (Z.pos (digits2_pos p) - 1)) by lia.
    rewrite !Z.pow_succ_r by lia. lia.
  - rewrite Pos2Z.inj_succ.
    replace (Z.succ (Z.pos (digits2_pos p)) - 1) with (Z.succ (Z.pos (digits2_pos p) - 1)) by lia.
    rewrite !Z.pow_succ_r by lia. lia.
  - simpl. lia.
Qed.

Lemma iter_xO_value (m k : positive) :
  Z.pos (Pos.iter xO m k) = Z.pos m * 2 ^ Z.pos k.
Proof.
  induction k as [|k IH] using Pos.peano_ind.
  - simpl. lia.
  - rewrite Pos.iter_succ, Pos2Z.inj_succ, Z.pow_succ_r by lia.
    rewrite Pos2Z.inj_xO, IH. lia.
Qed.

Lemma canonical_facts (m : positive) (e : Z) :
  bounded prec emax m e = true ->
  -1074 <= e <= 971 /\ Z.pos (digits2_pos m) <= 53 /\
  (-1074 < e -> Z.pos (digits2_pos m) = 53).
Proof.
  unfold bounded, canonical_mantissa, fexp, SpecFloat.emin, FloatOps.prec, FloatOps.emax.
  intros H. apply andb_prop in H. destruct H as [H1 H2].
  apply Z.eqb_eq in H1. apply Z.leb_le in H2. lia.
Qed.

Lemma mantissa_bounds (m : positive) (e : Z) :
  bounded prec emax m e = true ->
  -1074 <= e <= 971 /\ Z.pos m < 2 ^ 53 /\ (-1074 < e -> 2 ^ 52 <= Z.pos m).
Proof.
  intros H. destruct (canonical_facts m e H) as [He [Hd Hn]].
  pose proof (digits2_pos_bounds m) as [L U].
  split; [exact He|]. split.
  - eapply Z.lt_le_trans; [exact U|]. apply Z.pow_le_mono_r; lia.
  - intros G. rewrite (Hn G) in L. exact L.
Qed.

Lemma magnitude_step (a b p k : Z) :
  a < 2 ^ 53 -> 2 ^ 52 <= b -> 0 < p -> 2 <= k -> a * p < b * (p * k).
Proof.
  change (2 ^ 53) with 9007199254740992. change (2 ^ 52) with 4503599627370496.
  intros Ha Hb Hp Hk.
  assert (A : a * p < 9007199254740992 * p) by (apply Z.mul_lt_mono_pos_r; lia).
  assert (B : 9007199254740992 <= b * k) by nia.
  assert (C : 9007199254740992 * p <= b * k * p)
    by (apply Z.mul_le_mono_nonneg_r; lia).
  lia.
Qed.

Lemma magnitude_compare (m1 m2 : positive) (e1 e2 : Z) :
  bounded prec emax m1 e1 = true -> bounded prec emax m2 e2 = true ->
  match e1 ?= e2 with
  | Lt => Lt
  | Gt => Gt
  | Eq => Pos.compare_cont Eq m1 m2
  end = (Z.pos m1 * 2 ^ (e1 + 1074) ?= Z.pos m2 * 2 ^ (e2 + 1074)).
Proof.
  intros H1 H2.
  destruct (mantissa_bounds m1 e1 H1) as [He1 [U1 L1]].
  destruct (mantissa_bounds m2 e2 H2) as [He2 [U2 L2]].
  destruct (Z.compare_spec e1 e2) as [E|E|E].
  - subst e2. change (Pos.compare_cont Eq m1 m2) with (Z.pos m1 ?= Z.pos m2).
    assert (P : 0 < 2 ^ (e1 + 1074)) by (apply Z.pow_pos_nonneg; lia).
    destruct (Z.compare_spec (Z.pos m1) (Z.pos m2)) as [C|C|C]; symmetry;
      [apply Z.compare_eq_iff|apply Z.compare_lt_iff|apply Z.compare_gt_iff]; nia.
  - symmetry. apply Z.compare_lt_iff.
    replace (e2 + 1074) with ((e1 + 1074) + (e2 - e1)) by lia.
    rewrite (Z.pow_add_r 2 (e1 + 1074) (e2 - e1)) by lia.
    assert (P : 0 < 2 ^ (e1 + 1074)) by (apply Z.pow_pos_nonneg; lia).
    assert (K : 2 ^ 1 <= 2 ^ (e2 - e1)) by (apply Z.pow_le_mono_r; lia).
    specialize (L2 ltac:(lia)). change (2 ^ 1) with 2 in K.
    apply (magnitude_step (Z.pos m1) (Z.pos m2)); assumption.
  - symmetry. apply Z.compare_gt_iff.
    replace (e1 + 1074) with ((e2 + 1074) + (e1 - e2)) by lia.
    rewrite (Z.pow_add_r 2 (e2 + 1074) (e1 - e2)) by lia.
    assert (P : 0 < 2 ^ (e2 + 1074)) by (apply Z.pow_pos_nonneg; lia).
    assert (K : 2 ^ 1 <= 2 ^ (e1 - e2)) by (apply Z.pow_le_mono_r; lia).
    specialize (L1 ltac:(lia)). change (2 ^ 1) with 2 in K.
    apply (magnitude_step (Z.pos m2) (Z.pos m1)); assumption.
Qed.

Lemma scaled_pos (m : positive) (e : Z) :
  -1074 <= e -> 0 < Z.pos m * 2 ^ (e + 1074).
Proof. intros H. apply Z.mul_pos_pos; [lia|apply Z.pow_pos_nonneg; lia]. Qed.

(** On numbers, the comparison of the format is the comparison of values. *)
Lemma SFcompare_scaled (x y : spec_float) :
  valid_binary x = true -> valid_binary y = true ->
  sf_finite x = true -> sf_finite y = true ->
  SFcompare x y = Some (scaled x ?= scaled y).
Proof.
  destruct x as [sx|sx| |sx mx ex], y as [sy|sy| |sy my ey]; try discriminate;
    intros Vx Vy _ _; cbn [valid_binary] in Vx, Vy.
  - reflexivity.
  - destruct (mantissa_bounds my ey Vy) as [[He _] _].
    pose proof (scaled_pos my ey He).
    unfold SFcompare, scaled.
    destruct sy; cbv beta iota delta [cond_Zopp]; f_equal; symmetry;
      [apply Z.compare_gt_iff|apply Z.compare_lt_iff]; lia.
  - destruct (mantissa_bounds mx ex Vx) as [[He _] _].
    pose proof (scaled_pos mx ex He).
    unfold SFcompare, scaled.
    destruct sx; cbv beta iota delta [cond_Zopp]; f_equal; symmetry;
      [apply Z.compare_lt_iff|apply Z.compare_gt_iff]; lia.
  - destruct (mantissa_bounds mx ex Vx) as [[Hx _] _].
    destruct (mantissa_bounds my ey Vy) as [[Hy _] _].
    pose proof (scaled_pos mx ex Hx). pose proof (scaled_pos my ey Hy).
    pose proof (magnitude_compare mx my ex ey Vx Vy) as M.
    unfold SFcompare, scaled.
    destruct sx, sy; cbv beta iota delta [cond_Zopp]; f_equal.
    + rewrite Z.compare_opp, (Z.compare_antisym (Z.pos mx * 2 ^ (ex + 1074))), <- M.
      destruct (ex ?= ey); try reflexivity.
    + symmetry. apply Z.compare_lt_iff. lia.
    + symmetry. apply Z.compare_gt_iff. lia.
    + exact M.
Qed.

Lemma shl_align_value (m : positive) (e e' : Z) :
  e' <= e ->
  Z.pos (fst (shl_align m e e')) = Z.pos m * 2 ^ (e - e').
Proof.
  intros H. unfold shl_align.
  destruct (e' - e) as [|d|d] eqn:D; try lia.
  - replace (e - e') with 0 by lia. simpl fst. lia.
  - simpl fst. rewrite iter_xO_value. f_equal. f_equal. lia.
Qed.

(** The aligned mantissas of a sum or difference, scaled back. *)
Lemma aligned_scaled (s : bool) (m : positive) (e ez : Z) :
  -1074 <= ez <= e ->
  cond_Zopp s (Z.pos (fst (shl_align m e ez))) * 2 ^ (ez + 1074)
  = scaled (S754_finite s m e).
Proof.
  intros H. rewrite shl_align_value by lia. unfold scaled.
  replace (e + 1074) with ((e - ez) + (ez + 1074)) by lia.
  rewrite (Z.pow_add_r 2 (e - ez) (ez + 1074)) by lia.
  destruct s; cbv beta iota delta [cond_Zopp]; lia.
Qed.

Lemma binary_round_sign (s : bool) (m : positive) (e : Z) :
  sf_sign (binary_round prec emax s m e) = s.
Proof.
  unfold binary_round. destruct (shl_align m e _) as [mz ez].
  pose proof (binary_round_aux_not_nan s (Z.pos mz) ez loc_Exact ltac:(lia)) as N.
  unfold binary_round_aux in *.
  destruct (shr_fexp prec emax (Z.pos mz) ez loc_Exact) as [mrs' e'].
  destruct (shr_fexp prec emax _ e' loc_Exact) as [mrs'' e''].
  destruct (shr_m mrs''); [reflexivity| |congruence].
  destruct (Z.leb _ _); reflexivity.
Qed.

Lemma binary_normalize_sign (z e : Z) :
  sf_sign (binary_normalize prec emax z e false) = (z <? 0).
Proof.
  destruct z; simpl binary_normalize; [reflexivity| |]; apply binary_round_sign.
Qed.

(** The sign of a difference of two numbers is the sign of the difference
    of their values. *)
Lemma SFsub_sign (x y : spec_float) :
  valid_binary x = true -> valid_binary y = true ->
  sf_finite x = true -> sf_finite y = true ->
  scaled x <> scaled y ->
  sf_sign (SF64sub x y) = (scaled x - scaled y <? 0).
Proof.
  destruct x as [sx|sx| |sx mx ex], y as [sy|sy| |sy my ey]; try discriminate;
    intros Vx Vy _ _ N; cbn [valid_binary] in Vx, Vy.
  - now contradiction N.
  - destruct (mantissa_bounds my ey Vy) as [[He _] _].
    pose proof (scaled_pos my ey He).
    unfold SF64sub, SFsub, scaled, sf_sign.
    destruct sy; cbv beta iota delta [cond_Zopp negb]; symmetry;
      [apply Z.ltb_ge|apply Z.ltb_lt]; lia.
  - destruct (mantissa_bounds mx ex Vx) as [[He _] _].
    pose proof (scaled_pos mx ex He).
    unfold SF64sub, SFsub, scaled, sf_sign.
    destruct sx; cbv beta iota delta [cond_Zopp]; symmetry;
      [apply Z.ltb_lt|apply Z.ltb_ge]; lia.
  - destruct (mantissa_bounds mx ex Vx) as [[Hx _] _].
    destruct (mantissa_bounds my ey Vy) as [[Hy _] _].
    unfold SF64sub, SFsub. cbv zeta. rewrite binary_normalize_sign.
    pose proof (aligned_scaled sx mx ex (Z.min ex ey) ltac:(lia)) as A.
    pose proof (aligned_scaled sy my ey (Z.min ex ey) ltac:(lia)) as B.
    rewrite <- A, <- B.
    assert (P : 0 < 2 ^ (Z.min ex ey + 1074)) by (apply Z.pow_pos_nonneg; lia).
    set (a := cond_Zopp sx _). set (b := cond_Zopp sy _).
    destruct (Z.ltb_spec (a - b) 0), (Z.ltb_spec (a * 2 ^ (Z.min ex ey + 1074)
                                          - b * 2 ^ (Z.min ex ey + 1074)) 0);
      try reflexivity; nia.
Qed.

Local Close Scope Z_scope.

Lemma get_sign_spec (x : float) : get_sign x = sf_sign (Prim2SF x).
Proof.
  unfold get_sign, is_zero.
  rewrite FloatAxioms.eqb_spec. change (Prim2SF zero) with (S754_zero false).
  destruct (Prim2SF x) as [s|s| |s m e] eqn:E.
  - change (SFeqb (S754_zero s) (S754_zero false)) with true. cbv iota.
    rewrite ltb_spec, div_spec, E.
    change (Prim2SF one) with (S754_finite false 4503599627370496 (-52)).
    change (Prim2SF zero) with (S754_zero false).
    destruct s; reflexivity.
  - replace (SFeqb (S754_infinity s) (S754_zero false)) with false
      by (destruct s; reflexivity).
    rewrite ltb_spec, E. change (Prim2SF zero) with (S754_zero false).
    destruct s; reflexivity.
  - change (SFeqb S754_nan (S754_zero false)) with false. cbv iota.
    rewrite ltb_spec, E. reflexivity.
  - replace (SFeqb (S754_finite s m e) (S754_zero false)) with false
      by (destruct s; reflexivity).
    rewrite ltb_spec, E. change (Prim2SF zero) with (S754_zero false).
    destruct s; reflexivity.
Qed.

Lemma SFltb_sub_sign_numbers (x y : spec_float) :
  valid_binary x = true -> valid_binary y = true ->
  sf_finite x = true -> sf_finite y = true ->
  SFltb x y = true ->
  sf_sign (SF64sub x y) = true /\ sf_sign (SF64sub y x) = false.
Proof.
  intros Vx Vy Nx Ny H. unfold SFltb in H.
  rewrite (SFcompare_scaled x y Vx Vy Nx Ny) in H.
  assert (C : (scaled x < scaled y)%Z).
  { destruct (scaled x ?= scaled y)%Z eqn:E;
      [discriminate H|apply Z.compare_lt_iff; exact E|discriminate H]. }
  rewrite (SFsub_sign x y Vx Vy Nx Ny) by lia.
  rewrite (SFsub_sign y x Vy Vx Ny Nx) by lia.
  split; [apply Z.ltb_lt|apply Z.ltb_ge]; lia.
Qed.

Lemma SFltb_sub_sign (x y : spec_float) :
  valid_binary x = true -> valid_binary y = true ->
  SFltb x y = true ->
  sf_sign (SF64sub x y) = true /\ sf_sign (SF64sub y x) = false.
Proof.
  intros Vx Vy.
  destruct (sf_finite x) eqn:Nx, (sf_finite y) eqn:Ny.
  - now apply SFltb_sub_sign_numbers.
  - destruct x as [sx|sx| |sx mx ex], y as [sy|sy| |sy my ey]; try discriminate;
      destruct sx, sy; intros H; try discriminate H; split; reflexivity.
  - destruct x as [sx|sx| |sx mx ex], y as [sy|sy| |sy my ey]; try discriminate;
      destruct sx, sy; intros H; try discriminate H; split; reflexivity.
  - destruct x as [sx|sx| |sx mx ex], y as [sy|sy| |sy my ey]; try discriminate;
      try (intros H; discriminate H);
      try (destruct sx; intros H; discriminate H);
      try (destruct sy; intros H; discriminate H);
      destruct sx, sy; intros H; try discriminate H; split; reflexivity.
Qed.

(** A strictly smaller value minus a larger one carries the minus sign, and
    the other difference does not. *)
Lemma ltb_sub_sign (x y : float) :
  (x <? y) = true ->
  get_sign (x - y) = true /\ get_sign (y - x) = false.
Proof.
  rewrite !get_sign_spec, ltb_spec, !sub_spec.
  apply SFltb_sub_sign; apply Prim2SF_valid.
Qed.

Lemma is_nan_opp (x : float) : is_nan (- x) = is_nan x.
Proof.
  rewrite !is_nan_spec, FloatAxioms.opp_spec. destruct (Prim2SF x); reflexivity.
Qed.

(** ** The seconds of a [Timedelta] *)

Lemma all_from_sound (k : nat) : forall lo us,
  all_from k lo = true -> (lo <= us < lo + 2 ^ Z.of_nat k)%Z ->
  fraction_ok us = true.
Proof.
  induction k as [|k IH]; intros lo us H B.
  - simpl in *. replace us with lo by lia. exact H.
  - cbn [all_from] in H. apply andb_prop in H. destruct H as [H1 H2].
    rewrite Nat2Z.inj_succ, Z.pow_succ_r in B by lia.
    destruct (Z.lt_ge_cases us (lo + 2 ^ Z.of_nat k)) as [L|G].
    + apply (IH lo); [exact H1|lia].
    + apply (IH (lo + 2 ^ Z.of_nat k)%Z); [exact H2|lia].
Qed.

Lemma all_fractions : all_from 20 0 = true.
Proof. vm_compute. reflexivity. Qed.

Lemma fraction_below_one (us : Z) :
  (0 <= us < 1000000)%Z ->
  (0 <=? of_Z us / 1000000) = true /\ (of_Z us / 1000000 <? 1) = true.
Proof.
  intros B.
  assert (H : fraction_ok us = true).
  { apply (all_from_sound 20 0 us all_fractions). simpl. lia. }
  unfold fraction_ok in H.
  replace (1000000 <=? us)%Z with false in H by (symmetry; apply Z.leb_gt; lia).
  simpl in H. apply andb_prop in H. exact H.
Qed.

Local Open Scope Z_scope.

Lemma digits2_iter_xO (m k : positive) :
  digits2_pos (Pos.iter xO m k) = (digits2_pos m + k)%positive.
Proof.
  induction k as [|k IH] using Pos.peano_ind.
  - simpl. lia.
  - rewrite Pos.iter_succ. simpl digits2_pos. rewrite IH. lia.
Qed.

(** An integer of at most 53 binary digits converts exactly. *)
Lemma binary_round_small (p : positive) :
  Z.pos (digits2_pos p) <= 53 ->
  exists m e, binary_round prec emax false p 0 = S754_finite false m e /\
              Z.pos m * 2 ^ (e + 1074) = Z.pos p * 2 ^ 1074 /\
              bounded prec emax m e = true.
Proof.
  intros D. pose proof (Pos2Z.is_pos (digits2_pos p)) as D1.
  remember (Z.pos (digits2_pos p)) as d eqn:Hd.
  exists (fst (shl_align p 0 (d - 53))), (d - 53).
  assert (V : Z.pos (fst (shl_align p 0 (d - 53))) = Z.pos p * 2 ^ (53 - d)).
  { rewrite shl_align_value by lia. f_equal. f_equal. lia. }
  assert (G : Z.pos (digits2_pos (fst (shl_align p 0 (d - 53)))) = 53).
  { unfold shl_align. destruct (d - 53 - 0) as [|q|q] eqn:Q; simpl fst; try lia.
    rewrite digits2_iter_xO, Pos2Z.inj_add. lia. }
  split; [|split].
  - unfold binary_round.
    replace (fexp prec emax (Z.pos (digits2_pos p) + 0)) with (d - 53)
      by (rewrite <- Hd; unfold fexp, SpecFloat.emin, FloatOps.prec, FloatOps.emax; lia).
    assert (E : snd (shl_align p 0 (d - 53)) = d - 53).
    { unfold shl_align. destruct (d - 53 - 0) as [|q|q] eqn:Q; simpl snd; lia. }
    destruct (shl_align p 0 (d - 53)) as [mz ez]. simpl in E, G, V |- *. subst ez.
    unfold binary_round_aux, shr_fexp.
    cbn [Zdigits2]. rewrite G.
    replace (fexp prec emax (53 + (d - 53)) - (d - 53)) with 0
      by (unfold fexp, SpecFloat.emin, FloatOps.prec, FloatOps.emax; lia).
    cbn [shr shr_record_of_loc shr_m loc_of_shr_record round_nearest_even Zdigits2].
    rewrite G.
    replace (fexp prec emax (53 + (d - 53)) - (d - 53)) with 0
      by (unfold fexp, SpecFloat.emin, FloatOps.prec, FloatOps.emax; lia).
    cbn [shr shr_record_of_loc shr_m].
    replace (d - 53 <=? emax - prec) with true
      by (symmetry; apply Z.leb_le; unfold FloatOps.prec, FloatOps.emax; lia).
    reflexivity.
  - rewrite V. rewrite <- Z.mul_assoc. f_equal.
    rewrite <- Z.pow_add_r by lia. f_equal. lia.
  - unfold bounded, canonical_mantissa. rewrite G.
    apply andb_true_intro. split; [apply Z.eqb_eq|apply Z.leb_le];
      unfold fexp, SpecFloat.emin, FloatOps.prec, FloatOps.emax; lia.
Qed.

Lemma of_Z_negative (z : Z) :
  - 2 ^ 53 < z < 0 ->
  exists m e, Prim2SF (of_Z z) = S754_finite true m e /\
              scaled (S754_finite true m e) = z * 2 ^ 1074 /\
              bounded prec emax m e = true.
Proof.
  destruct z as [|p|p]; try lia. intros B.
  assert (D : Z.pos (digits2_pos p) <= 53).
  { pose proof (digits2_pos_bounds p) as [L _].
    assert (L' : 2 ^ (Z.pos (digits2_pos p) - 1) < 2 ^ 53) by lia.
    apply Z.pow_lt_mono_r_iff in L'; lia. }
  destruct (binary_round_small p D) as [m [e [E [V Bd]]]].
  exists m, e. split; [|split; [|exact Bd]].
  - unfold of_Z. rewrite FloatAxioms.opp_spec, of_uint63_spec.
    rewrite Uint63.of_Z_spec.
    rewrite Z.mod_small.
    + cbn [binary_normalize]. rewrite E. reflexivity.
    + change Uint63.wB with (2 ^ 63). split; [lia|].
      apply Z.lt_trans with (2 ^ 53); [lia|reflexivity].
  - unfold scaled. cbv beta iota delta [cond_Zopp]. rewrite V. lia.
Qed.

(** a float in [0, 1): a number whose scaled value is below that of 1 *)
Lemma unit_interval_scaled (y : float) :
  (0 <=? y)%float = true -> (y <? 1)%float = true ->
  sf_finite (Prim2SF y) = true /\ 0 <= scaled (Prim2SF y) < 2 ^ 1074.
Proof.
  rewrite leb_spec, ltb_spec.
  change (Prim2SF 0) with (S754_zero false).
  change (Prim2SF 1) with (S754_finite false 4503599627370496 (-52)).
  pose proof (Prim2SF_valid y) as V.
  destruct (Prim2SF y) as [s|s| |s m e]; try discriminate.
  - intros _ _. split; [reflexivity|]. unfold scaled.
    split; [lia|apply Z.pow_pos_nonneg; lia].
  - destruct s; discriminate.
  - destruct s; [discriminate|]. intros _ H. split; [reflexivity|].
    unfold SFltb in H.
    rewrite (SFcompare_scaled (S754_finite false m e)
               (S754_finite false 4503599627370496 (-52)) V
               (eq_refl : valid_binary (S754_finite false 4503599627370496 (-52)) = true)
               eq_refl eq_refl) in H.
    destruct (mantissa_bounds m e V) as [[He _] _].
    pose proof (scaled_pos m e He) as P.
    assert (C : scaled (S754_finite false m e)
                < scaled (S754_finite false 4503599627370496 (-52))).
    { destruct (_ ?= _) eqn:E in H; try discriminate H.
      apply Z.compare_lt_iff. exact E. }
    change (scaled (S754_finite false 4503599627370496 (-52)))
      with (2 ^ 52 * 2 ^ 1022) in C.
    rewrite <- Z.pow_add_r in C by lia. change (52 + 1022) with 1074 in C.
    unfold scaled in *. cbv beta iota delta [cond_Zopp] in *. lia.
Qed.

Lemma SFadd_negative (sx : bool) (mx : positive) (ex : Z) (y : spec_float) :
  sx = true ->
  bounded prec emax mx ex = true -> valid_binary y = true ->
  sf_finite y = true ->
  scaled (S754_finite sx mx ex) + scaled y < 0 ->
  sf_nonpos (SF64add (S754_finite sx mx ex) y) = true.
Proof.
  intros -> Vx Vy Ny H.
  destruct y as [sy|sy| |sy my ey]; try discriminate.
  - reflexivity.
  - cbn [valid_binary] in Vy.
    destruct (mantissa_bounds mx ex Vx) as [[Hx _] _].
    destruct (mantissa_bounds my ey Vy) as [[Hy _] _].
    unfold SF64add, SFadd. cbv zeta.
    pose proof (aligned_scaled true mx ex (Z.min ex ey) ltac:(lia)) as A.
    pose proof (aligned_scaled sy my ey (Z.min ex ey) ltac:(lia)) as B.
    rewrite <- A, <- B in H.
    assert (P : 0 < 2 ^ (Z.min ex ey + 1074)) by (apply Z.pow_pos_nonneg; lia).
    set (a := cond_Zopp true _) in *. set (b := cond_Zopp sy _) in *.
    assert (N : a + b < 0) by nia.
    pose proof (binary_normalize_sign (a + b) (Z.min ex ey)) as S.
    pose proof (binary_normalize_not_nan (a + b) (Z.min ex ey)) as NN.
    replace (a + b <? 0) with true in S by (symmetry; apply Z.ltb_lt; exact N).
    destruct (binary_normalize _ _ _ _ _) as [s|s| |s m e]; simpl in S;
      try congruence; subst s; reflexivity.
Qed.

Lemma negative_span_seconds (ns : Z) :
  - 2 ^ 63 < ns < 0 ->
  sf_nonpos (Prim2SF (Timedelta_total_seconds ns)) = true.
Proof.
  intros B. unfold Timedelta_total_seconds. cbv zeta.
  pose proof (Z.mod_pos_bound ns 1000000000 ltac:(lia)) as M.
  assert (S1 : ns / 1000000000 <= -1).
  { assert (ns / 1000000000 < 0) by (apply Z.div_lt_upper_bound; lia). lia. }
  assert (S2 : - 2 ^ 53 < ns / 1000000000).
  { apply Z.lt_le_trans with (-9223372037); [reflexivity|].
    apply Z.div_le_lower_bound; [lia|].
    change (2 ^ 63) with 9223372036854775808 in B. lia. }
  assert (U : 0 <= ns mod 1000000000 / 1000 < 1000000).
  { split; [apply Z.div_pos; lia|apply Z.div_lt_upper_bound; lia]. }
  assert (S3 : ns / 1000000000 < 0) by lia.
  destruct (of_Z_negative _ (conj S2 S3)) as [m [e [E [V Bd]]]].
  destruct (fraction_below_one _ U) as [F0 F1].
  destruct (unit_interval_scaled _ F0 F1) as [Ny [Y0 Y1]].
  rewrite add_spec, E.
  apply SFadd_negative; try reflexivity; try assumption.
  - apply Prim2SF_valid.
  - rewrite V.
    assert (P : 0 < 2 ^ 1074) by (apply Z.pow_pos_nonneg; lia). nia.
Qed.

Local Close Scope Z_scope.

(* ================================================================= *)
(** * The metrics only read the telemetry *)

Lemma read_only_ret {A} (a : A) : read_only (ret a).
Proof. intros df. reflexivity. Qed.

Lemma read_only_lift {A} (o : outcome A) : read_only (lift o).
Proof. intros df. reflexivity. Qed.

Lemma read_only_getitem {A} c (f : reading -> A) : read_only (getitem c f).
Proof. intros df. unfold after, getitem. now destruct (has_column df c). Qed.

Lemma read_only_bind {A B} (m : M A) (k : A -> M B) :
  read_only m -> (forall a, read_only (k a)) -> read_only (bind m k).
Proof.
  intros Hm Hk df. specialize (Hm df). unfold after, bind in *.
  destruct (m df) as [[a|e] df']; simpl in Hm; subst df'.
  - apply Hk.
  - reflexivity.
Qed.

Lemma read_only_try_except {A} (body handler : M A) :
  read_only body -> read_only handler -> read_only (try_except body handler).
Proof.
  intros Hb Hh df. specialize (Hb df). unfold after, try_except in *.
  destruct (body df) as [[a|e] df']; simpl in Hb; subst df'.
  - reflexivity.
  - apply Hh.
Qed.

Lemma read_only_if {A} (b : bool) (m m' : M A) :
  read_only m -> read_only m' -> read_only (if b then m else m').
Proof. now destruct b. Qed.

Create HintDb read_only.
#[local] Hint Resolve read_only_ret read_only_lift read_only_getitem
  read_only_try_except read_only_if : read_only.
#[local] Hint Extern 2 (read_only (bind _ _)) =>
  apply read_only_bind; [ | intros ] : read_only.

Lemma braking_read_only : read_only calculate_braking_aggressiveness.
Proof.
  unfold calculate_braking_aggressiveness, braking_aggressiveness_body.
  auto 20 with read_only.
Qed.

Lemma throttle_read_only : read_only calculate_throttle_smoothness.
Proof.
  unfold calculate_throttle_smoothness, throttle_smoothness_body.
  auto 20 with read_only.
Qed.

Lemma cornering_read_only : read_only calculate_cornering_consistency.
Proof.
  unfold calculate_cornering_consistency, cornering_consistency_body.
  auto 20 with read_only.
Qed.

Lemma gear_read_only : read_only calculate_gear_shift_frequency.
Proof.
  unfold calculate_gear_shift_frequency, gear_shift_frequency_body.
  auto 20 with read_only.
Qed.

(** A write is visible in the telemetry object: [read_only] is not a
    property every computation has. *)
Lemma setitem_is_a_write :
  after (setitem_Speed [0; 0]) constant_gear_lap <> constant_gear_lap.
Proof.
  intros H.
  apply (f_equal (fun df => map (fun r => Speed r =? 0) (rows df))) in H.
  vm_compute in H. discriminate.
Qed.

(** C10.  Each of the four metric functions leaves its telemetry input
    unchanged: whatever the frame (and whether the body returns or raises),
    the telemetry object after the call equals the one before it, columns
    and rows alike. *)
Theorem metrics_leave_telemetry_unchanged (df : DataFrame) :
  after calculate_braking_aggressiveness df = df /\
  after calculate_throttle_smoothness df = df /\
  after calculate_cornering_consistency df = df /\
  after calculate_gear_shift_frequency df = df.
Proof.
  split; [apply braking_read_only|].
  split; [apply throttle_read_only|].
  split; [apply cornering_read_only|apply gear_read_only].
Qed.

(* ================================================================= *)
(** * Fewer than two readings *)

Lemma short_cases (df : DataFrame) :
  (length (rows df) < 2)%nat -> rows df = [] \/ exists r, rows df = [r].
Proof.
  destruct (rows df) as [|r [|r' t]]; simpl; intros H; eauto; lia.
Qed.

(** C1 (as amended).  On every telemetry frame with fewer than 2 readings,
    braking aggressiveness, cornering consistency and gear-shift frequency
    return exactly 0.0, and throttle smoothness returns NaN (the standard
    deviation of fewer than two values); it returns 0.0 only when the
    Throttle column is absent. *)
Theorem short_telemetry (df : DataFrame) :
  (length (rows df) < 2)%nat ->
  result calculate_braking_aggressiveness df = Return 0 /\
  result calculate_cornering_consistency df = Return 0 /\
  result calculate_gear_shift_frequency df = Return 0 /\
  result calculate_throttle_smoothness df
    = Return (if has_column df cThrottle then nan else 0).
Proof.
  intros H. destruct (short_cases df H) as [E|[r E]];
    destruct df as [cols rs]; simpl in E; subst rs;
    run_metric; unfold has_column.
  - repeat split; case_columns; reflexivity.
  - repeat split; case_columns; try reflexivity.
    + simpl. destruct (Brake r); reflexivity.
    + simpl. destruct (Throttle r <? 50); reflexivity.
    + unfold iloc, timedelta_sub; simpl. rewrite Z.sub_diag. reflexivity.
Qed.

Lemma short_telemetry_witness :
  (length (rows one_reading) < 2)%nat /\
  result calculate_braking_aggressiveness one_reading = Return 0 /\
  result calculate_cornering_consistency one_reading = Return 0 /\
  result calculate_gear_shift_frequency one_reading = Return 0 /\
  result calculate_throttle_smoothness one_reading = Return nan.
Proof.
  assert (H : (length (rows one_reading) < 2)%nat) by (simpl; lia).
  split; [exact H | exact (short_telemetry one_reading H)].
Defined.

(** C1, as stated, fails: with no reading and with one reading throttle
    smoothness returns NaN, which is not 0.0. *)
Lemma short_telemetry_counterexample :
  (length (rows no_reading) < 2)%nat /\
  result calculate_throttle_smoothness no_reading = Return nan /\
  result calculate_throttle_smoothness no_reading <> Return 0 /\
  (length (rows one_reading) < 2)%nat /\
  result calculate_throttle_smoothness one_reading = Return nan /\
  result calculate_throttle_smoothness one_reading <> Return 0.
Proof.
  split; [simpl; lia|].
  split; [vm_compute; reflexivity|].
  split; [differ_by is_nan|].
  split; [simpl; lia|].
  split; [vm_compute; reflexivity|differ_by is_nan].
Qed.

(* ================================================================= *)
(** * Gear-shift frequency *)

Lemma constant_tail_no_change g t :
  Forall (fun x => x = g) t ->
  filter (fun b : bool => b)
    (map ne0 (diff_from (fun x y => Some (x - y)%Z) g t)) = [].
Proof.
  induction 1 as [|x t Hx _ IH]; simpl; [reflexivity|].
  subst x. rewrite Z.sub_diag. simpl. exact IH.
Qed.

(** With the gear constant the count of changes is 1, not 0: the first
    difference is missing, and a missing value compares unequal to 0. *)
Lemma constant_gear_counts_one g t :
  Forall (fun x => x = g) t ->
  gear_changes_of (g :: t) = 1%Z.
Proof.
  intros H. unfold gear_changes_of, count_true, diff_int. simpl.
  now rewrite (constant_tail_no_change g t H).
Qed.

Lemma last_nonempty_default {A} (t : list A) : forall a x y : A,
  last (a :: t) x = last (a :: t) y.
Proof.
  induction t as [|b t IH]; intros a x y; [reflexivity|].
  change (last (b :: t) x = last (b :: t) y). apply IH.
Qed.

Lemma nth_error_last {A} (t : list A) : forall x : A,
  nth_error (x :: t) (length t) = Some (last t x).
Proof.
  induction t as [|y t IH]; intros x; [reflexivity|].
  change (nth_error (y :: t) (length t) = Some (last (y :: t) x)).
  rewrite IH. f_equal. destruct t as [|z t]; [reflexivity|].
  apply (last_nonempty_default t z y x).
Qed.

Lemma iloc_last {A} (x : A) (t : list A) :
  iloc (x :: t) (-1) = Return (last t x).
Proof.
  unfold iloc. simpl length.
  replace (Z.of_nat (S (length t)) + -1)%Z with (Z.of_nat (length t)) by lia.
  change (-1 <? 0)%Z with true. cbv iota.
  replace ((0 <=? Z.of_nat (length t))
           && (Z.of_nat (length t) <? Z.of_nat (S (length t))))%Z
    with true
    by (symmetry; apply andb_true_intro; split;
        [apply Z.leb_le|apply Z.ltb_lt]; lia).
  rewrite Nat2Z.id, nth_error_last. reflexivity.
Qed.

Lemma iloc_first {A} (x : A) (t : list A) : iloc (x :: t) 0 = Return x.
Proof.
  unfold iloc. simpl length. change (0 <? 0)%Z with false. cbv iota.
  replace ((0 <=? 0) && (0 <? Z.of_nat (S (length t))))%Z
    with true
    by (symmetry; apply andb_true_intro; split;
        [apply Z.leb_le|apply Z.ltb_lt]; lia).
  reflexivity.
Qed.

Lemma last_map {A B} (f : A -> B) (t : list A) (x : A) :
  last (map f t) (f x) = f (last t x).
Proof.
  induction t as [|y t IH]; [reflexivity|].
  simpl. destruct t; [reflexivity|]. exact IH.
Qed.

(** What the code returns on any lap driven in one gear: one "shift" per
    elapsed time, 0.0 only when no time has elapsed or the span does not
    fit a [Timedelta]. *)
Lemma constant_gear_frequency (r : reading) (t : list reading) (g : Z) :
  Forall (fun x => nGear x = g) (r :: t) ->
  result calculate_gear_shift_frequency (frame_of (r :: t)) =
  Return (match timedelta_sub (Time (last t r)) (Time r) with
          | Return span =>
            if 0 <? scalar_total_seconds span / 60
            then 1 / (scalar_total_seconds span / 60)
            else 0
          | Raise _ => 0
          end).
Proof.
  intros H. run_on_full_frame.
  cbn [map]. rewrite iloc_last, iloc_first, last_map.
  fold (gear_changes_of (nGear r :: map nGear t)).
  rewrite constant_gear_counts_one.
  - change (of_Z 1) with 1.
    destruct (timedelta_sub (Time (last t r)) (Time r)) as [span|e];
      [|reflexivity].
    cbn [fst]. destruct (0 <? _); reflexivity.
  - inversion H as [|x l Hr Ht]; subst. clear H.
    induction Ht as [|y l Hy _ IH]; simpl; constructor; [congruence|exact IH].
Qed.

(** C2 (code defect).  The claim asks for 0.0 on every lap with a constant
    gear.  On two readings one minute apart, both in third gear, the code
    returns 1.0 shift per minute. *)
Theorem constant_gear_reports_a_shift :
  Forall (fun r => nGear r = 3%Z) (rows constant_gear_lap) /\
  gear_changes_of (map nGear (rows constant_gear_lap)) = 1%Z /\
  result calculate_gear_shift_frequency constant_gear_lap = Return 1.
Proof.
  split; [repeat constructor|].
  split; [reflexivity | vm_compute; reflexivity].
Qed.

(* ================================================================= *)
(** * Profiling a driver *)

Lemma metric_returns (k : metric_key) (df : DataFrame) :
  exists v, metric_of k df = (Return v, df).
Proof.
  assert (H : after (metric_of k) df = df).
  { destruct k; [apply braking_read_only | apply throttle_read_only
                | apply cornering_read_only | apply gear_read_only]. }
  unfold after in H.
  destruct k; simpl in *; unfold calculate_braking_aggressiveness,
    calculate_throttle_smoothness, calculate_cornering_consistency,
    calculate_gear_shift_frequency, try_except, ret in *;
    match goal with
    | H : snd (match ?b df with _ => _ end) = _ |- _ =>
        destruct (b df) as [[a|e] df']; simpl in H; subst df'; eauto
    end.
Qed.

Lemma compute_metrics_returns (df : DataFrame) :
  exists m, compute_metrics df = (Return m, df).
Proof.
  unfold compute_metrics, bind.
  destruct (metric_returns braking_aggressiveness df) as [b Hb].
  destruct (metric_returns throttle_smoothness df) as [t Ht].
  destruct (metric_returns cornering_consistency df) as [c Hc].
  destruct (metric_returns gear_shift_frequency df) as [g Hg].
  cbn [metric_of] in Hb, Ht, Hc, Hg.
  rewrite Hb, Ht, Hc, Hg. eexists. reflexivity.
Qed.

(** The fastest lap carries telemetry with at least one row: a profile is
    returned, with the lap record. *)
Lemma analyze_with_telemetry session code d lap df :
  session code = Return d -> laps_empty d = false ->
  pick_fastest d = Return (Some lap) -> lap_empty lap = false ->
  get_telemetry lap = Return df -> df_empty df = false ->
  exists m, analyze_driver_style session code = Return (Some (m, Some lap)).
Proof.
  intros Hs Hd Hf Hl Ht He.
  unfold analyze_driver_style, get_driver_telemetry, get_driver_telemetry_body.
  rewrite Hs, Hd, Hf, Hl, Ht, He.
  destruct (compute_metrics_returns df) as [m ->]. eauto.
Qed.

(** The telemetry of the fastest lap has no rows: [None]. *)
Lemma analyze_empty_telemetry session code d lap df :
  session code = Return d -> laps_empty d = false ->
  pick_fastest d = Return (Some lap) -> lap_empty lap = false ->
  get_telemetry lap = Return df -> df_empty df = true ->
  analyze_driver_style session code = Return None.
Proof.
  intros Hs Hd Hf Hl Ht He.
  unfold analyze_driver_style, get_driver_telemetry, get_driver_telemetry_body.
  now rewrite Hs, Hd, Hf, Hl, Ht, He.
Qed.

(** The provider raises while fetching the telemetry: [None]. *)
Lemma analyze_provider_fault session code d lap e :
  session code = Return d -> laps_empty d = false ->
  pick_fastest d = Return (Some lap) -> lap_empty lap = false ->
  get_telemetry lap = Raise e ->
  analyze_driver_style session code = Return None.
Proof.
  intros Hs Hd Hf Hl Ht.
  unfold analyze_driver_style, get_driver_telemetry, get_driver_telemetry_body.
  now rewrite Hs, Hd, Hf, Hl, Ht.
Qed.

(** The fastest-lap record is empty: [get_driver_telemetry] returns a bare
    [None] and the unpacking in [analyze_driver_style] raises. *)
Lemma analyze_empty_lap_record session code d lap :
  session code = Return d -> laps_empty d = false ->
  pick_fastest d = Return (Some lap) -> lap_empty lap = true ->
  analyze_driver_style session code = Raise TypeError.
Proof.
  intros Hs Hd Hf Hl.
  unfold analyze_driver_style, get_driver_telemetry, get_driver_telemetry_body.
  now rewrite Hs, Hd, Hf, Hl.
Qed.

(** The same happens for a driver with no lap at all. *)
Lemma analyze_no_laps session code d :
  session code = Return d -> laps_empty d = true ->
  analyze_driver_style session code = Raise TypeError.
Proof.
  intros Hs Hd.
  unfold analyze_driver_style, get_driver_telemetry, get_driver_telemetry_body.
  now rewrite Hs, Hd.
Qed.

(** [pick_fastest()] finds no fastest lap and hands back [None]: reading
    [.empty] of it raises inside the [try] block, and the result is
    [None]. *)
Lemma analyze_no_fastest_lap session code d :
  session code = Return d -> laps_empty d = false ->
  pick_fastest d = Return None ->
  analyze_driver_style session code = Return None.
Proof.
  intros Hs Hd Hf.
  unfold analyze_driver_style, get_driver_telemetry, get_driver_telemetry_body.
  now rewrite Hs, Hd, Hf.
Qed.

(** C3.  For every driver that has laps in the session but whose fastest
    lap carries no telemetry, [analyze_driver_style] returns [None] and
    raises nothing: this holds when the provider has no fastest-lap record
    to give ([pick_fastest()] is [None]), and when it gives a lap record
    (a full row of the laps table, so that its [.empty] is false) whose
    telemetry cannot be fetched or is an empty sequence. *)
Theorem fastest_lap_without_telemetry session driver_code d :
  session driver_code = Return d -> laps_empty d = false ->
  (pick_fastest d = Return None \/
   exists lap, pick_fastest d = Return (Some lap) /\ lap_empty lap = false /\
     ((exists e, get_telemetry lap = Raise e) \/
      (exists df, get_telemetry lap = Return df /\ df_empty df = true))) ->
  analyze_driver_style session driver_code = Return None.
Proof.
  intros Hs Hd [Hf|[lap [Hf [Hl [[e Ht]|[df [Ht He]]]]]]].
  - exact (analyze_no_fastest_lap session driver_code d Hs Hd Hf).
  - exact (analyze_provider_fault session driver_code d lap e Hs Hd Hf Hl Ht).
  - exact (analyze_empty_telemetry session driver_code d lap df Hs Hd Hf Hl Ht He).
Qed.

Lemma fastest_lap_without_telemetry_witness :
  analyze_driver_style empty_telemetry_session "VER" = Return None /\
  analyze_driver_style no_fastest_session "VER" = Return None.
Proof.
  split.
  - apply (fastest_lap_without_telemetry empty_telemetry_session "VER"
             (mkLaps [timed_lap no_reading] (Return (Some (timed_lap no_reading)))));
      [reflexivity|reflexivity|].
    right. exists (timed_lap no_reading).
    split; [reflexivity|]. split; [reflexivity|].
    right. exists no_reading. split; reflexivity.
  - apply (fastest_lap_without_telemetry no_fastest_session "VER"
             (mkLaps [timed_lap scenario_lap] (Return None)));
      [reflexivity|reflexivity|].
    left. reflexivity.
Defined.

(* ================================================================= *)
(** * The five-sample scenario *)

(** C4 (as amended).  On the five-sample lap, braking aggressiveness is the
    mean over exactly the two instants with the brake on and the speed
    falling (rows 1 and 2) of the deceleration in G, a strictly positive
    value; cornering consistency is the standard deviation of the speeds
    [95; 90] of those same two rows, row 0 having no first difference. *)
Theorem scenario_metrics :
  braking_mask_of (map Brake (rows scenario_lap)) (map Speed (rows scenario_lap))
    = [false; true; true; false; false] /\
  corner_mask_of (map Throttle (rows scenario_lap)) (map Speed (rows scenario_lap))
    = [false; true; true; false; false] /\
  result calculate_braking_aggressiveness scenario_lap
    = Return (mean [ - ((95 / 3.6 - 100 / 3.6) / total_seconds 200000000) / 9.81;
                     - ((90 / 3.6 - 95 / 3.6) / total_seconds 200000000) / 9.81 ]) /\
  (0 <? value_of (result calculate_braking_aggressiveness scenario_lap)) = true /\
  result calculate_cornering_consistency scenario_lap = Return (std [95; 90]).
Proof.
  split; [reflexivity|]. split; [reflexivity|].
  split; [vm_compute; reflexivity|].
  split; vm_compute; reflexivity.
Qed.

(** C4, as stated, fails: the gear-shift frequency is 150, not 75, and the
    cornering consistency is not the standard deviation of [100; 95; 90]. *)
Lemma scenario_counterexample :
  gear_changes_of (map nGear (rows scenario_lap)) = 2%Z /\
  result calculate_gear_shift_frequency scenario_lap = Return 150 /\
  result calculate_gear_shift_frequency scenario_lap <> Return 75 /\
  std [100; 95; 90] = 5 /\
  result calculate_cornering_consistency scenario_lap
    <> Return (std [100; 95; 90]).
Proof.
  split; [reflexivity|].
  split; [vm_compute; reflexivity|].
  split; [differ_by (fun v => v =? 75)|].
  split; [vm_compute; reflexivity|differ_by (fun v => v =? 5)].
Qed.

(* ================================================================= *)
(** * Comparing two profiles *)

Section Comparison.
Variables driver1 driver2 : string.
Variables m1 m2 : Metrics.

Let c12 := compare_drivers driver1 driver2 m1 m2.
Let c21 := compare_drivers driver2 driver1 m2 m1.

Lemma delta_of_compare k :
  delta_of c12 k = lookup m1 k - lookup m2 k.
Proof. destruct k; reflexivity. Qed.

(** The delta of one ordering is the negation of the other's; when the two
    values are equal both deltas are 0.0. *)
Lemma delta_negated k :
  delta_of c12 k = - delta_of c21 k \/
  (delta_of c12 k = 0 /\ delta_of c21 k = 0).
Proof.
  replace (delta_of c12 k) with (lookup m1 k - lookup m2 k)
    by (destruct k; reflexivity).
  replace (delta_of c21 k) with (lookup m2 k - lookup m1 k)
    by (destruct k; reflexivity).
  apply sub_antisym.
Qed.

Lemma leaders_agree_when_ordered :
  ((lookup m1 braking_aggressiveness <? lookup m2 braking_aggressiveness)
   || (lookup m2 braking_aggressiveness <? lookup m1 braking_aggressiveness) = true ->
   braking_leader c12 = braking_leader c21) /\
  ((lookup m1 throttle_smoothness <? lookup m2 throttle_smoothness)
   || (lookup m2 throttle_smoothness <? lookup m1 throttle_smoothness) = true ->
   smooth_leader c12 = smooth_leader c21).
Proof.
  split; intros H; simpl in *.
  - destruct (m_braking_aggressiveness m2 <? m_braking_aggressiveness m1) eqn:E.
    + now rewrite (ltb_asym _ _ E).
    + rewrite orb_false_r in H. now rewrite H.
  - destruct (m_throttle_smoothness m1 <? m_throttle_smoothness m2) eqn:E.
    + now rewrite (ltb_asym _ _ E).
    + simpl in H. now rewrite H.
Qed.

(** The colour of a card is read off the sign of the difference of the two
    values, by the colour convention of its metric. *)
Lemma card_indicator_of k :
  card_indicator (card_of c12 k) =
  match k with
  | braking_aggressiveness | gear_shift_frequency =>
    if get_sign (lookup m1 k - lookup m2 k) then red else green
  | throttle_smoothness | cornering_consistency =>
    if get_sign (lookup m1 k - lookup m2 k) then green else red
  end.
Proof.
  destruct k; unfold card_indicator, delta_is_negative; simpl;
    destruct (get_sign _); reflexivity.
Qed.

(** The two deltas are NaN together, and are negations of each other when
    they are numbers. *)
Lemma delta_numbers k :
  is_nan (delta_of c12 k) = is_nan (delta_of c21 k) /\
  (is_nan (delta_of c12 k) = false ->
   (delta_of c12 k =? - delta_of c21 k) = true).
Proof.
  destruct (delta_negated k) as [E|[E1 E2]].
  - rewrite E. split; [apply is_nan_opp|].
    unfold is_nan. intros H.
    destruct (- delta_of c21 k =? - delta_of c21 k); [reflexivity|discriminate H].
  - rewrite E1, E2. split; reflexivity.
Qed.

(** On a tie (and whenever a value is NaN) the [else] branch names the
    driver of the second slot. *)
Lemma leader_defaults_to_second :
  (lookup m2 braking_aggressiveness <? lookup m1 braking_aggressiveness) = false ->
  (lookup m1 throttle_smoothness <? lookup m2 throttle_smoothness) = false ->
  braking_leader c12 = driver2 /\ smooth_leader c12 = driver2.
Proof. simpl. now intros -> ->. Qed.

End Comparison.

(** The direction in which a delta is coloured: inverse (lower is better)
    for throttle smoothness and cornering consistency, normal for braking
    aggressiveness and gear-shift frequency. *)
Lemma delta_colors (driver1 driver2 : string) (m1 m2 : Metrics) (k : metric_key) :
  card_delta_color (card_of (compare_drivers driver1 driver2 m1 m2) k)
  = match k with
    | throttle_smoothness | cornering_consistency => inverse
    | braking_aggressiveness | gear_shift_frequency => normal
    end.
Proof. destruct k; reflexivity. Qed.

Lemma indicators_opposite_when_ordered (driver1 driver2 : string)
    (m1 m2 : Metrics) (k : metric_key) :
  (lookup m1 k <? lookup m2 k) || (lookup m2 k <? lookup m1 k) = true ->
  card_indicator (card_of (compare_drivers driver1 driver2 m1 m2) k)
  <> card_indicator (card_of (compare_drivers driver2 driver1 m2 m1) k).
Proof.
  intros H. rewrite !card_indicator_of.
  assert (S : get_sign (lookup m1 k - lookup m2 k)
              = negb (get_sign (lookup m2 k - lookup m1 k))).
  { apply orb_prop in H. destruct H as [H|H];
      destruct (ltb_sub_sign _ _ H) as [H1 H2]; rewrite H1, H2; reflexivity. }
  rewrite S. destruct k, (get_sign (lookup m2 _ - lookup m1 _)); discriminate.
Qed.

(** C5 (as amended).  For every pair of profiles and every metric, the
    deltas of (A, B) and of (B, A) are NaN together and, when they are
    numbers, one is the exact negation of the other.  Whenever the two
    values of a metric are strictly ordered, both orderings report the same
    driver as leading: the colours of the two cards are opposite, and the
    leader named for braking aggressiveness and for throttle smoothness is
    the same driver.  When the two values of braking aggressiveness (or of
    throttle smoothness) are not strictly ordered, a tie or a NaN, each
    ordering names the driver of its own second slot. *)
Theorem comparison_antisymmetric (driver1 driver2 : string) (m1 m2 : Metrics) :
  let c12 := compare_drivers driver1 driver2 m1 m2 in
  let c21 := compare_drivers driver2 driver1 m2 m1 in
  (forall k,
     is_nan (delta_of c12 k) = is_nan (delta_of c21 k) /\
     (is_nan (delta_of c12 k) = false ->
      (delta_of c12 k =? - delta_of c21 k) = true)) /\
  (forall k,
     (lookup m1 k <? lookup m2 k) || (lookup m2 k <? lookup m1 k) = true ->
     card_indicator (card_of c12 k) <> card_indicator (card_of c21 k)) /\
  ((lookup m1 braking_aggressiveness <? lookup m2 braking_aggressiveness)
   || (lookup m2 braking_aggressiveness <? lookup m1 braking_aggressiveness) = true ->
   braking_leader c12 = braking_leader c21) /\
  ((lookup m1 braking_aggressiveness <? lookup m2 braking_aggressiveness)
   || (lookup m2 braking_aggressiveness <? lookup m1 braking_aggressiveness) = false ->
   braking_leader c12 = driver2 /\ braking_leader c21 = driver1) /\
  ((lookup m1 throttle_smoothness <? lookup m2 throttle_smoothness)
   || (lookup m2 throttle_smoothness <? lookup m1 throttle_smoothness) = true ->
   smooth_leader c12 = smooth_leader c21) /\
  ((lookup m1 throttle_smoothness <? lookup m2 throttle_smoothness)
   || (lookup m2 throttle_smoothness <? lookup m1 throttle_smoothness) = false ->
   smooth_leader c12 = driver2 /\ smooth_leader c21 = driver1).
Proof.
  cbv zeta.
  split; [intros k; apply delta_numbers|].
  split; [intros k; apply indicators_opposite_when_ordered|].
  destruct (leaders_agree_when_ordered driver1 driver2 m1 m2) as [B T].
  split; [exact B|]. split; [|split; [exact T|]].
  - intros H. apply orb_false_elim in H. destruct H as [H1 H2].
    simpl in *. now rewrite H1, H2.
  - intros H. apply orb_false_elim in H. destruct H as [H1 H2].
    simpl in *. now rewrite H1, H2.
Qed.

Lemma comparison_antisymmetric_witness :
  (lookup profile_a braking_aggressiveness <? lookup profile_b braking_aggressiveness)
  || (lookup profile_b braking_aggressiveness <? lookup profile_a braking_aggressiveness)
  = true /\
  braking_leader (compare_drivers "VER" "HAM" profile_a profile_b)
    = braking_leader (compare_drivers "HAM" "VER" profile_b profile_a) /\
  card_indicator (card_of (compare_drivers "VER" "HAM" profile_a profile_b)
                          braking_aggressiveness)
    <> card_indicator (card_of (compare_drivers "HAM" "VER" profile_b profile_a)
                               braking_aggressiveness).
Proof.
  assert (H : (lookup profile_a braking_aggressiveness
               <? lookup profile_b braking_aggressiveness)
              || (lookup profile_b braking_aggressiveness
                  <? lookup profile_a braking_aggressiveness) = true)
    by reflexivity.
  pose proof (comparison_antisymmetric "VER" "HAM" profile_a profile_b) as T.
  cbv zeta in T. destruct T as [_ [C [L _]]].
  split; [exact H|]. split; [exact (L H)|exact (C braking_aggressiveness H)].
Defined.

(** C5, as stated, fails on a tie: each ordering names the driver of its
    own second slot as braking leader, so the two orderings name different
    drivers; and each ordering colours its own first driver green. *)
Lemma tie_leader_counterexample :
  braking_leader (compare_drivers "VER" "HAM" tied_profile tied_profile)
    = "HAM"%string /\
  braking_leader (compare_drivers "HAM" "VER" tied_profile tied_profile)
    = "VER"%string /\
  braking_leader (compare_drivers "VER" "HAM" tied_profile tied_profile)
    <> braking_leader (compare_drivers "HAM" "VER" tied_profile tied_profile) /\
  card_indicator (card_of (compare_drivers "VER" "HAM" tied_profile tied_profile)
                          gear_shift_frequency) = green /\
  card_indicator (card_of (compare_drivers "HAM" "VER" tied_profile tied_profile)
                          gear_shift_frequency) = green.
Proof.
  split; [reflexivity|]. split; [reflexivity|].
  split; [vm_compute; discriminate|].
  split; vm_compute; reflexivity.
Qed.

(** C6 (as amended).  For identical profiles in both slots, both leaders
    are the driver of the second slot, whatever the values; and the delta
    of every metric whose value is a finite number is exactly 0.0. *)
Theorem identical_profiles (driver1 driver2 : string) (m : Metrics) :
  (braking_leader (compare_drivers driver1 driver2 m m) = driver2 /\
   smooth_leader (compare_drivers driver1 driver2 m m) = driver2) /\
  forall k, is_finite (lookup m k) = true ->
            delta_of (compare_drivers driver1 driver2 m m) k = 0.
Proof.
  split.
  - simpl. now rewrite !ltb_irrefl.
  - intros k H. rewrite delta_of_compare. now apply sub_diag_finite.
Qed.

Lemma identical_profiles_witness :
  is_finite (lookup tied_profile gear_shift_frequency) = true /\
  delta_of (compare_drivers "VER" "HAM" tied_profile tied_profile)
           gear_shift_frequency = 0.
Proof.
  split; [reflexivity|].
  apply (proj2 (identical_profiles "VER" "HAM" tied_profile) gear_shift_frequency).
  reflexivity.
Defined.

(** C6, as stated, fails when a metric value is not a finite number.  A lap
    of a single reading has the profile (0, NaN, 0, 0), and a lap with two
    readings on one timestamp under braking has the braking value
    infinity; with either profile in both slots the delta is NaN. *)
Lemma identical_profiles_counterexample :
  result compute_metrics one_reading = Return single_reading_profile /\
  delta_of (compare_drivers "VER" "HAM" single_reading_profile single_reading_profile)
           throttle_smoothness = nan /\
  delta_of (compare_drivers "VER" "HAM" single_reading_profile single_reading_profile)
           throttle_smoothness <> 0 /\
  result compute_metrics repeated_timestamp_lap = Return repeated_timestamp_profile /\
  (lookup repeated_timestamp_profile braking_aggressiveness
     =? lookup repeated_timestamp_profile braking_aggressiveness) = true /\
  delta_of (compare_drivers "VER" "HAM" repeated_timestamp_profile
                            repeated_timestamp_profile)
           braking_aggressiveness = nan /\
  delta_of (compare_drivers "VER" "HAM" repeated_timestamp_profile
                            repeated_timestamp_profile)
           braking_aggressiveness <> 0.
Proof.
  assert (N : nan <> 0)
    by (intros H; apply (f_equal is_nan) in H; vm_compute in H; discriminate).
  split; [vm_compute; reflexivity|].
  split; [vm_compute; reflexivity|].
  split; [exact N|].
  split; [vm_compute; reflexivity|].
  split; [vm_compute; reflexivity|].
  split; [vm_compute; reflexivity|exact N].
Qed.

(** C9.  For every pair of profiles the report of who leads follows the
    direction of each metric.  For braking aggressiveness and gear-shift
    frequency the driver with the higher value leads: the card of the first
    driver is green when it has the higher value and red when the second
    has, and the braking leader is named accordingly.  For throttle
    smoothness and cornering consistency the driver with the lower value
    leads: the card is green when the first driver has the lower value and
    red when the second has, and the smoothness leader is named
    accordingly.  Where the first driver is not strictly ahead, the leader
    named is the second driver. *)
Theorem leader_direction (driver1 driver2 : string) (m1 m2 : Metrics) :
  let c := compare_drivers driver1 driver2 m1 m2 in
  ((lookup m2 braking_aggressiveness <? lookup m1 braking_aggressiveness) = true ->
     braking_leader c = driver1 /\ card_indicator (col1 c) = green) /\
  ((lookup m1 braking_aggressiveness <? lookup m2 braking_aggressiveness) = true ->
     braking_leader c = driver2 /\ card_indicator (col1 c) = red) /\
  ((lookup m2 gear_shift_frequency <? lookup m1 gear_shift_frequency) = true ->
     card_indicator (col4 c) = green) /\
  ((lookup m1 gear_shift_frequency <? lookup m2 gear_shift_frequency) = true ->
     card_indicator (col4 c) = red) /\
  ((lookup m1 throttle_smoothness <? lookup m2 throttle_smoothness) = true ->
     smooth_leader c = driver1 /\ card_indicator (col2 c) = green) /\
  ((lookup m2 throttle_smoothness <? lookup m1 throttle_smoothness) = true ->
     smooth_leader c = driver2 /\ card_indicator (col2 c) = red) /\
  ((lookup m1 cornering_consistency <? lookup m2 cornering_consistency) = true ->
     card_indicator (col3 c) = green) /\
  ((lookup m2 cornering_consistency <? lookup m1 cornering_consistency) = true ->
     card_indicator (col3 c) = red) /\
  ((lookup m2 braking_aggressiveness <? lookup m1 braking_aggressiveness) = false ->
     braking_leader c = driver2) /\
  ((lookup m1 throttle_smoothness <? lookup m2 throttle_smoothness) = false ->
     smooth_leader c = driver2).
Proof.
  cbv zeta.
  pose proof (card_indicator_of driver1 driver2 m1 m2 braking_aggressiveness) as I1.
  pose proof (card_indicator_of driver1 driver2 m1 m2 throttle_smoothness) as I2.
  pose proof (card_indicator_of driver1 driver2 m1 m2 cornering_consistency) as I3.
  pose proof (card_indicator_of driver1 driver2 m1 m2 gear_shift_frequency) as I4.
  cbn [card_of] in I1, I2, I3, I4. rewrite I1, I2, I3, I4.
  clear I1 I2 I3 I4. simpl.
  repeat match goal with |- _ /\ _ => split end; intros H;
    try (destruct (ltb_sub_sign _ _ H) as [S1 S2]);
    rewrite ?S1, ?S2, ?H, ?(ltb_asym _ _ H); try split; reflexivity.
Qed.

Lemma leader_direction_witness :
  (lookup profile_b gear_shift_frequency <? lookup profile_a gear_shift_frequency)
  = true /\
  card_indicator (col4 (compare_drivers "VER" "HAM" profile_a profile_b)) = green /\
  (lookup profile_a cornering_consistency <? lookup profile_b cornering_consistency)
  = true /\
  card_indicator (col3 (compare_drivers "VER" "HAM" profile_a profile_b)) = green.
Proof.
  pose proof (leader_direction "VER" "HAM" profile_a profile_b) as T.
  cbv zeta in T. destruct T as [_ [_ [G [_ [_ [_ [C _]]]]]]].
  assert (Hg : (lookup profile_b gear_shift_frequency
                <? lookup profile_a gear_shift_frequency) = true) by reflexivity.
  assert (Hc : (lookup profile_a cornering_consistency
                <? lookup profile_b cornering_consistency) = true) by reflexivity.
  split; [exact Hg|]. split; [exact (G Hg)|]. split; [exact Hc|exact (C Hc)].
Defined.

(* ================================================================= *)
(** * Sums and standard deviations *)

Lemma present_app s t : present (s ++ t) = present s ++ present t.
Proof. apply flat_map_app. Qed.

Lemma sum_of_slot o :
  sum_of (present [o]) (match o with Some x => x | None => 0 end).
Proof. destruct o; simpl; constructor. Qed.

Lemma sum_of_fold (s : list (option float)) : forall xs a,
  sum_of xs a -> sum_of (xs ++ present s) (fold_left PrimFloat.add (filled s) a).
Proof.
  induction s as [|o s IH]; intros xs a H.
  - simpl. now rewrite app_nil_r.
  - change (o :: s) with ([o] ++ s) at 1.
    rewrite present_app, app_assoc. cbn [filled map fold_left]. apply IH.
    apply sum_of_add; [exact H|apply sum_of_slot].
Qed.

Lemma sum_of_eq xs ys a : xs = ys -> sum_of xs a -> sum_of ys a.
Proof. now intros ->. Qed.

Lemma perm_step (P X L R : list float) :
  Permutation (P ++ L) R -> Permutation (P ++ X ++ L) (X ++ R).
Proof.
  intros H. rewrite Permutation_app_swap_app.
  now apply Permutation_app_head.
Qed.

Lemma sum_of_unrolled (n : nat) : forall (s : list (option float)),
  (length s <= n)%nat ->
  forall X0 X1 X2 X3 X4 X5 X6 X7 r0 r1 r2 r3 r4 r5 r6 r7,
  sum_of X0 r0 -> sum_of X1 r1 -> sum_of X2 r2 -> sum_of X3 r3 ->
  sum_of X4 r4 -> sum_of X5 r5 -> sum_of X6 r6 -> sum_of X7 r7 ->
  sum_of ((X0 ++ X1 ++ X2 ++ X3 ++ X4 ++ X5 ++ X6 ++ X7) ++ present s)
         (unrolled_sum r0 r1 r2 r3 r4 r5 r6 r7 (filled s)).
Proof.
  induction n as [|n IH]; intros s Hn X0 X1 X2 X3 X4 X5 X6 X7
    r0 r1 r2 r3 r4 r5 r6 r7 H0 H1 H2 H3 H4 H5 H6 H7.
  - destruct s; [|simpl in Hn; lia]. simpl. rewrite app_nil_r.
    replace (X0 ++ X1 ++ X2 ++ X3 ++ X4 ++ X5 ++ X6 ++ X7)
      with (((X0 ++ X1) ++ (X2 ++ X3)) ++ ((X4 ++ X5) ++ (X6 ++ X7)))
      by (now rewrite <- !app_assoc).
    repeat apply sum_of_add; assumption.
  - assert (Short : sum_of ((X0 ++ X1 ++ X2 ++ X3 ++ X4 ++ X5 ++ X6 ++ X7) ++ present s)
              (fold_left PrimFloat.add (filled s)
                 (((r0 + r1) + (r2 + r3)) + ((r4 + r5) + (r6 + r7))))).
    { apply sum_of_fold.
      replace (X0 ++ X1 ++ X2 ++ X3 ++ X4 ++ X5 ++ X6 ++ X7)
        with (((X0 ++ X1) ++ (X2 ++ X3)) ++ ((X4 ++ X5) ++ (X6 ++ X7)))
        by (now rewrite <- !app_assoc).
      repeat apply sum_of_add; assumption. }
    destruct s as [|o0 [|o1 [|o2 [|o3 [|o4 [|o5 [|o6 [|o7 rest]]]]]]]];
      try exact Short.
    clear Short.
    change (filled (o0 :: o1 :: o2 :: o3 :: o4 :: o5 :: o6 :: o7 :: rest))
      with (match o0 with Some x => x | None => 0 end
            :: match o1 with Some x => x | None => 0 end
            :: match o2 with Some x => x | None => 0 end
            :: match o3 with Some x => x | None => 0 end
            :: match o4 with Some x => x | None => 0 end
            :: match o5 with Some x => x | None => 0 end
            :: match o6 with Some x => x | None => 0 end
            :: match o7 with Some x => x | None => 0 end
            :: filled rest).
    cbn [unrolled_sum].
    eapply sum_of_perm;
      [|apply (IH rest ltac:(simpl in Hn; lia)
                (X0 ++ present [o0]) (X1 ++ present [o1]) (X2 ++ present [o2])
                (X3 ++ present [o3]) (X4 ++ present [o4]) (X5 ++ present [o5])
                (X6 ++ present [o6]) (X7 ++ present [o7]));
        (apply sum_of_add; [assumption|apply sum_of_slot])].
    change (present (o0 :: o1 :: o2 :: o3 :: o4 :: o5 :: o6 :: o7 :: rest))
      with (present ([o0] ++ [o1] ++ [o2] ++ [o3] ++ [o4] ++ [o5] ++ [o6] ++ [o7] ++ rest)).
    rewrite !present_app.
    rewrite <- !app_assoc.
    repeat (rewrite !app_assoc; rewrite <- !app_assoc).
    (* X0 ++ p0 ++ X1 ++ p1 ++ ... ++ X7 ++ p7 ++ rest ~
       X0 ++ X1 ++ ... ++ X7 ++ p0 ++ ... ++ p7 ++ rest *)
    apply Permutation_app_head.
    apply perm_step.
    repeat match goal with
           | |- Permutation (?P ++ ?p ++ ?X ++ ?L) (?X ++ ?R) =>
             rewrite (app_assoc P p); apply perm_step
           end.
    rewrite <- !app_assoc. reflexivity.
Qed.

Lemma sum_of_block (s : list (option float)) :
  sum_of (present s) (block_sum (filled s)).
Proof.
  assert (Short : sum_of (present s) (fold_left PrimFloat.add (filled s) neg_zero)).
  { apply (sum_of_fold s [] neg_zero). constructor. }
  destruct s as [|o0 [|o1 [|o2 [|o3 [|o4 [|o5 [|o6 [|o7 rest]]]]]]]];
    try exact Short.
  clear Short.
  change (filled (o0 :: o1 :: o2 :: o3 :: o4 :: o5 :: o6 :: o7 :: rest))
    with (match o0 with Some x => x | None => 0 end
          :: match o1 with Some x => x | None => 0 end
          :: match o2 with Some x => x | None => 0 end
          :: match o3 with Some x => x | None => 0 end
          :: match o4 with Some x => x | None => 0 end
          :: match o5 with Some x => x | None => 0 end
          :: match o6 with Some x => x | None => 0 end
          :: match o7 with Some x => x | None => 0 end
          :: filled rest).
  cbn [block_sum].
  eapply sum_of_eq;
    [|apply (sum_of_unrolled (length rest) rest (le_n _)
               (present [o0]) (present [o1]) (present [o2]) (present [o3])
               (present [o4]) (present [o5]) (present [o6]) (present [o7]));
      apply sum_of_slot].
  change (present (o0 :: o1 :: o2 :: o3 :: o4 :: o5 :: o6 :: o7 :: rest))
    with (present ([o0] ++ [o1] ++ [o2] ++ [o3] ++ [o4] ++ [o5] ++ [o6] ++ [o7] ++ rest)).
  rewrite !present_app, <- !app_assoc. reflexivity.
Qed.

Lemma filled_firstn n s : firstn n (filled s) = filled (firstn n s).
Proof. apply firstn_map. Qed.

Lemma filled_skipn n s : skipn n (filled s) = filled (skipn n s).
Proof. apply skipn_map. Qed.

Lemma sum_of_pairwise (depth : nat) : forall s : list (option float),
  sum_of (present s) (pairwise_sum depth (filled s)).
Proof.
  induction depth as [|depth IH]; intros s; cbn [pairwise_sum].
  - apply sum_of_block.
  - destruct (_ <=? _)%nat; [apply sum_of_block|].
    set (n2 := (_ - _)%nat).
    rewrite filled_firstn, filled_skipn.
    rewrite <- (firstn_skipn n2 s) at 1. rewrite present_app.
    apply sum_of_add; apply IH.
Qed.

Lemma sum_of_fsum (s : list (option float)) :
  sum_of (present s) (fsum (filled s)).
Proof.
  unfold fsum. destruct (filled s) eqn:E.
  - destruct s; [constructor|discriminate].
  - rewrite <- E. apply (sum_of_add [] (present s)); [constructor|].
    apply sum_of_pairwise.
Qed.

Lemma present_series f l : present (series_with f l) = map f (dropna l).
Proof.
  induction l as [|x l IH]; [reflexivity|].
  unfold dropna in *. simpl. destruct (is_nan x); simpl; [exact IH|].
  now rewrite <- IH.
Qed.

Lemma filled_series f l :
  filled (series_with f l)
  = putmask (map f (putmask l (isna l) 0)) (isna l) 0.
Proof.
  induction l as [|x l IH]; [reflexivity|].
  unfold putmask, isna in *. simpl. rewrite <- IH.
  destruct (is_nan x); reflexivity.
Qed.

Lemma filled_values l :
  filled (series_with (fun x => x) l) = putmask l (isna l) 0.
Proof.
  induction l as [|x l IH]; [reflexivity|].
  unfold putmask, isna in *. simpl. rewrite <- IH.
  destruct (is_nan x); reflexivity.
Qed.

Lemma count_present_dropna l : count_present l = length (dropna l).
Proof.
  unfold count_present, isna, dropna.
  induction l as [|x l IH]; [reflexivity|].
  cbn [map filter length]. destruct (is_nan x); cbn [negb length].
  - rewrite <- IH. reflexivity.
  - rewrite <- IH.
    pose proof (filter_length_le (fun b : bool => b) (map is_nan l)) as H.
    rewrite length_map in H. lia.
Qed.

Lemma std_missing l : (length (dropna l) < 2)%nat -> std l = nan.
Proof.
  intros H. unfold std. rewrite count_present_dropna.
  destruct (Nat.leb_spec (length (dropna l)) 1); [reflexivity|lia].
Qed.

Lemma std_is_sample_std l :
  (2 <= length (dropna l))%nat -> is_sample_std (dropna l) (std l).
Proof.
  intros H. unfold std. rewrite count_present_dropna.
  destruct (Nat.leb_spec (length (dropna l)) 1); [lia|].
  set (total := fsum (putmask l (isna l) 0)).
  set (avg := total / of_nat (length (dropna l))).
  exists total,
    (fsum (putmask (map (fun x => (avg - x) * (avg - x)) (putmask l (isna l) 0))
                   (isna l) 0)).
  split; [|split; [|reflexivity]].
  - unfold total. rewrite <- filled_values.
    rewrite <- (map_id (dropna l)), <- present_series. apply sum_of_fsum.
  - fold avg. rewrite <- filled_series.
    rewrite (map_ext _ (fun x => (avg - x) * (avg - x)))
      by (intros x; apply square_sub_swap).
    rewrite <- present_series. apply sum_of_fsum.
Qed.

Lemma mean_missing l : dropna l = [] -> mean l = nan.
Proof.
  intros H. unfold mean. rewrite count_present_dropna, H. reflexivity.
Qed.

Lemma mean_is_mean l :
  (0 < length (dropna l))%nat -> is_mean (dropna l) (mean l).
Proof.
  intros H. unfold mean. rewrite count_present_dropna.
  destruct (Nat.ltb_spec 0 (length (dropna l))); [|lia].
  exists (fsum (putmask l (isna l) 0)). split; [|reflexivity].
  rewrite <- filled_values.
  rewrite <- (map_id (dropna l)), <- present_series. apply sum_of_fsum.
Qed.

(** Adding to -0.0, and to 0.0, leaves a value as it is; in the second case
    the value must not be -0.0. *)
Lemma neg_zero_add (x : float) : neg_zero + x = x.
Proof.
  apply Prim2SF_inj. rewrite add_spec.
  change (Prim2SF neg_zero) with (S754_zero true).
  destruct (Prim2SF x) as [s|s| |s m e]; try reflexivity.
  destruct s; reflexivity.
Qed.

Lemma zero_add (x : float) : sf_sign (Prim2SF x) = false -> 0 + x = x.
Proof.
  intros H. apply Prim2SF_inj. rewrite add_spec.
  change (Prim2SF 0) with (S754_zero false).
  destruct (Prim2SF x) as [s|s| |s m e]; try reflexivity.
  simpl in H. subst s. reflexivity.
Qed.

Lemma abs_sign (x : float) : sf_sign (Prim2SF (abs x)) = false.
Proof. rewrite abs_spec. destruct (Prim2SF x); reflexivity. Qed.

Lemma binary_round_aux_sf_sign (s : bool) (m e : Z) (l : location) :
  (0 <= m)%Z -> sf_sign (binary_round_aux prec emax s m e l) = s.
Proof.
  intros H. pose proof (binary_round_aux_not_nan s m e l H) as N.
  unfold binary_round_aux in *.
  destruct (shr_fexp prec emax m e l) as [mrs' e'].
  destruct (shr_fexp prec emax _ e' loc_Exact) as [mrs'' e''].
  destruct (shr_m mrs''); [reflexivity| |congruence].
  destruct (Z.leb _ _); reflexivity.
Qed.

Lemma square_sign (a : float) : sf_sign (Prim2SF (a * a)) = false.
Proof.
  rewrite mul_spec. destruct (Prim2SF a) as [s|s| |s m e]; simpl;
    try reflexivity; try apply xorb_nilpotent.
  unfold SF64mul, SFmul.
  rewrite binary_round_aux_sf_sign by lia. apply xorb_nilpotent.
Qed.

(** Fewer than eight values are added one after the other. *)
Lemma pairwise_sum_short (depth : nat) (a : list float) :
  (length a < 8)%nat ->
  pairwise_sum depth a = fold_left PrimFloat.add a neg_zero.
Proof.
  intros H.
  assert (B : block_sum a = fold_left PrimFloat.add a neg_zero).
  { destruct a as [|a0 [|a1 [|a2 [|a3 [|a4 [|a5 [|a6 [|a7 rest]]]]]]]];
      try reflexivity. simpl in H. lia. }
  destruct depth; cbn [pairwise_sum]; [exact B|].
  destruct (Nat.leb_spec (length a) PW_BLOCKSIZE) as [_|L]; [exact B|].
  unfold PW_BLOCKSIZE in L. lia.
Qed.

(** The length of the array is depth enough: no greater depth changes the
    sum, so the splitting always ends on blocks of at most [PW_BLOCKSIZE]
    values. *)
Lemma pairwise_sum_depth (d : nat) : forall (a : list float) (d' : nat),
  (length a <= d)%nat -> (d <= d')%nat ->
  pairwise_sum d' a = pairwise_sum d a.
Proof.
  induction d as [|d IH]; intros a d' La Ld.
  - destruct a; [|simpl in La; lia]. destruct d'; reflexivity.
  - destruct d' as [|d']; [lia|]. cbn [pairwise_sum].
    destruct (Nat.leb_spec (length a) PW_BLOCKSIZE) as [_|L]; [reflexivity|].
    unfold PW_BLOCKSIZE in L.
    set (n2 := (length a / 2 - (length a / 2) mod 8)%nat).
    assert (H2 : (0 < n2 < length a)%nat).
    { unfold n2.
      pose proof (Nat.mod_upper_bound (length a / 2) 8 ltac:(lia)) as M.
      pose proof (Nat.div_mod_eq (length a) 2) as D.
      pose proof (Nat.mod_upper_bound (length a) 2 ltac:(lia)) as M2.
      lia. }
    rewrite (IH (firstn n2 a) d'), (IH (skipn n2 a) d'); try lia.
    + reflexivity.
    + rewrite length_skipn. lia.
    + rewrite length_firstn. lia.
Qed.

(** A leading entry that is missing does not change a sum of fewer than
    eight entries, when the first entry present is not -0.0. *)
Lemma fsum_leading_missing (x : float) (t : list float) :
  (length t < 6)%nat -> sf_sign (Prim2SF x) = false ->
  fsum (0 :: x :: t) = fsum (x :: t).
Proof.
  intros L Hx. unfold fsum.
  rewrite (pairwise_sum_short _ (0 :: x :: t)) by (simpl; lia).
  rewrite (pairwise_sum_short _ (x :: t)) by (simpl; lia).
  cbn [fold_left]. change (neg_zero + 0) with 0.
  rewrite (zero_add x Hx), (neg_zero_add x). reflexivity.
Qed.

Lemma putmask_present (f : float -> float) (l : list float) (v : float) :
  Forall (fun x => is_nan x = false) l ->
  putmask (map f l) (isna l) v = map f l.
Proof.
  induction 1 as [|x l Hx _ IH]; [reflexivity|].
  unfold putmask, isna in *. simpl. now rewrite Hx, IH.
Qed.

Lemma dropna_present (l : list float) :
  Forall (fun x => is_nan x = false) l -> dropna l = l.
Proof.
  induction 1 as [|x l Hx _ IH]; [reflexivity|].
  unfold dropna in *. simpl. now rewrite Hx, IH.
Qed.

(* ================================================================= *)
(** * Throttle smoothness *)

Lemma throttle_smoothness_run (rs : list reading) :
  result calculate_throttle_smoothness (frame_of rs)
    = Return (std (map abs (diff (map Throttle rs)))).
Proof. run_on_full_frame. reflexivity. Qed.

(** The missing first entry of [diff] is skipped by the reduction. *)
Lemma dropna_abs_diff (l : list float) :
  dropna (map abs (diff l)) = dropna (map abs (consecutive_differences l)).
Proof. destruct l; reflexivity. Qed.

(** C7 (as amended).  For every telemetry sample sequence, throttle
    smoothness is a sample standard deviation, with Bessel's correction, of
    the absolute first differences of consecutive throttle values
    (differences that are NaN are skipped); when fewer than 2 such
    differences exist it returns NaN, not 0.0. *)
Theorem throttle_smoothness_sample_std (rs : list reading) :
  let changes := dropna (map abs (consecutive_differences (map Throttle rs))) in
  if (length changes <? 2)%nat
  then result calculate_throttle_smoothness (frame_of rs) = Return nan
  else exists v,
         result calculate_throttle_smoothness (frame_of rs) = Return v /\
         is_sample_std changes v.
Proof.
  cbv zeta. rewrite throttle_smoothness_run, <- dropna_abs_diff.
  destruct (Nat.ltb_spec (length (dropna (map abs (diff (map Throttle rs))))) 2)
    as [L|L].
  - now rewrite std_missing.
  - eexists. split; [reflexivity|]. apply std_is_sample_std, L.
Qed.

Lemma finite_changes_not_nan (x : float) (t : list float) :
  Forall (fun v => is_finite v = true) (x :: t) ->
  Forall (fun v => is_nan v = false) (map abs (diff_from PrimFloat.sub x t)).
Proof.
  revert x. induction t as [|y t IH]; intros x H; [constructor|].
  inversion H as [|? ? Hx Ht]; subst. inversion Ht as [|? ? Hy _]; subst.
  simpl. constructor; [|apply IH, Ht].
  rewrite is_nan_abs. apply (sub_finite_not_nan y x Hy Hx).
Qed.

Lemma length_diff_from {A B} (sub : A -> A -> B) (t : list A) :
  forall x, length (diff_from sub x t) = length t.
Proof. induction t; intros x; simpl; auto. Qed.

(** On finite throttle readings, from three samples on and as long as
    NumPy adds the values one after the other (fewer than eight), the code
    gives exactly the value of the specification's formula. *)
Lemma throttle_smoothness_refines_spec (rs : list reading) :
  Forall (fun r => is_finite (Throttle r) = true) rs ->
  (3 <= length rs < 8)%nat ->
  result calculate_throttle_smoothness (frame_of rs)
    = Return (spec_throttle_smoothness (map Throttle rs)).
Proof.
  intros Hfin Hlen.
  rewrite throttle_smoothness_run. unfold spec_throttle_smoothness.
  destruct rs as [|r t]; [simpl in Hlen; lia|].
  cbn [map consecutive_differences diff diff_with].
  assert (F : Forall (fun v => is_finite v = true) (Throttle r :: map Throttle t)).
  { change (Throttle r :: map Throttle t) with (map Throttle (r :: t)).
    apply Forall_map. exact Hfin. }
  pose proof (finite_changes_not_nan _ _ F) as N.
  assert (Len : length (map abs (diff_from PrimFloat.sub (Throttle r)
                                   (map Throttle t))) = length t).
  { now rewrite length_map, length_diff_from, length_map. }
  remember (map abs (diff_from PrimFloat.sub (Throttle r) (map Throttle t)))
    as ds eqn:Eds.
  assert (Hd : exists d ds', ds = abs d :: ds').
  { destruct t as [|r' t']; [simpl in Hlen; lia|]. subst ds. simpl. eauto. }
  destruct Hd as [d [ds' Hd]].
  simpl in Hlen.
  destruct (Nat.ltb_spec (length ds) 2) as [L|L]; [lia|].
  unfold std, sample_std.
  rewrite count_present_dropna.
  change (abs nan) with nan.
  change (dropna (nan :: ds)) with (dropna ds).
  rewrite (dropna_present ds N).
  destruct (Nat.leb_spec (length ds) 1) as [L'|_]; [lia|].
  change (isna (nan :: ds)) with (true :: isna ds).
  change (putmask (nan :: ds) (true :: isna ds) 0)
    with (0 :: putmask ds (isna ds) 0).
  pose proof (putmask_present (fun x => x) ds 0 N) as P.
  rewrite map_id in P. rewrite P. clear P.
  assert (T : fsum (0 :: ds) = fsum ds).
  { rewrite Hd. apply fsum_leading_missing; [|apply abs_sign].
    rewrite Hd in Len. simpl in Len. lia. }
  rewrite T.
  set (avg := fsum ds / of_nat (length ds)).
  cbn [map]. 
  change (putmask ((avg - 0) * (avg - 0) :: map (fun x => (avg - x) * (avg - x)) ds)
            (true :: isna ds) 0)
    with (0 :: putmask (map (fun x => (avg - x) * (avg - x)) ds) (isna ds) 0).
  rewrite (putmask_present _ ds 0 N).
  rewrite (map_ext (fun x => (avg - x) * (avg - x)) (fun x => (x - avg) * (x - avg)))
    by (intros x; apply square_sub_swap).
  assert (Q : fsum (0 :: map (fun x => (x - avg) * (x - avg)) ds)
              = fsum (map (fun x => (x - avg) * (x - avg)) ds)).
  { rewrite Hd. cbn [map]. apply fsum_leading_missing; [|apply square_sign].
    rewrite length_map. rewrite Hd in Len. simpl in Len. lia. }
  rewrite Q. reflexivity.
Qed.

(** C7, as stated, fails on a single difference: two readings give NaN
    where the specification's wording gives 0.0. *)
Lemma single_difference_counterexample :
  length (map abs (consecutive_differences (map Throttle (rows constant_gear_lap))))
    = 1%nat /\
  result calculate_throttle_smoothness constant_gear_lap = Return nan /\
  spec_throttle_smoothness (map Throttle (rows constant_gear_lap)) = 0 /\
  result calculate_throttle_smoothness constant_gear_lap
    <> Return (spec_throttle_smoothness (map Throttle (rows constant_gear_lap))).
Proof.
  split; [reflexivity|].
  split; [vm_compute; reflexivity|].
  split; [vm_compute; reflexivity|differ_by is_nan].
Qed.

(* ================================================================= *)
(** * Totality *)

Lemma try_except_returns {A} (body : M A) (d : A) (df : DataFrame) :
  exists v, result (try_except body (ret d)) df = Return v.
Proof.
  unfold result, try_except, ret.
  destruct (body df) as [[a|e] df']; simpl; eauto.
Qed.

Lemma try_except_handles {A} (body : M A) (d : A) (df : DataFrame) (e : exn) :
  result body df = Raise e -> result (try_except body (ret d)) df = Return d.
Proof.
  unfold result, try_except, ret.
  destruct (body df) as [[a|e'] df']; simpl; congruence.
Qed.

Lemma metric_is_try_except k : metric_of k = try_except (body_of k) (ret 0).
Proof. destruct k; reflexivity. Qed.

Lemma missing_column_gives_zero k c df :
  In c (columns_read k) -> has_column df c = false ->
  result (metric_of k) df = Return 0.
Proof.
  destruct df as [cols rs]. unfold has_column. cbn [columns].
  destruct k; simpl; intros Hin H;
    repeat (destruct Hin as [<-|Hin]; [|]); try contradiction;
    run_metric; unfold has_column; cbn [columns rows];
    rewrite ?H;
    repeat (cbn [fst snd columns rows];
            match goal with
            | |- context [if negb ?b then _ else _] => destruct (negb b)
            | |- context [existsb ?f cols] => destruct (existsb f cols) eqn:?
            end; rewrite ?H);
    try reflexivity; try congruence.
Qed.

(** C8 (as amended).  Each of the four metric functions is total on every
    telemetry frame: it returns a float and no exception reaches the
    caller; whenever its [try] block raises, and in particular whenever a
    column it reads is missing, it returns 0.0. *)
Theorem metrics_total (k : metric_key) (df : DataFrame) :
  (exists v, result (metric_of k) df = Return v) /\
  (forall e, result (body_of k) df = Raise e ->
             result (metric_of k) df = Return 0) /\
  (forall c, In c (columns_read k) -> has_column df c = false ->
             result (metric_of k) df = Return 0).
Proof.
  rewrite metric_is_try_except. repeat split.
  - apply try_except_returns.
  - apply try_except_handles.
  - rewrite <- metric_is_try_except. intros c. apply missing_column_gives_zero.
Qed.

Lemma metrics_total_witness :
  In cSpeed (columns_read cornering_consistency) /\
  has_column partial_frame cSpeed = false /\
  result (metric_of cornering_consistency) partial_frame = Return 0.
Proof.
  assert (Hin : In cSpeed (columns_read cornering_consistency)) by (simpl; auto).
  assert (Hc : has_column partial_frame cSpeed = false) by reflexivity.
  split; [exact Hin|]. split; [exact Hc|].
  exact (proj2 (proj2 (metrics_total cornering_consistency partial_frame))
           cSpeed Hin Hc).
Defined.

(** C8, as stated, fails for failures that raise nothing: an empty series
    gives throttle smoothness NaN, and a zero time step under braking gives
    braking aggressiveness infinity; neither is mapped to 0.0. *)
Lemma degenerate_counterexample :
  result calculate_throttle_smoothness no_reading = Return nan /\
  result calculate_throttle_smoothness no_reading <> Return 0 /\
  result calculate_braking_aggressiveness repeated_timestamp_lap = Return infinity /\
  result calculate_braking_aggressiveness repeated_timestamp_lap <> Return 0.
Proof.
  split; [vm_compute; reflexivity|].
  split; [differ_by is_nan|].
  split; [vm_compute; reflexivity|differ_by (fun v => v =? 0)].
Qed.


(* ================================================================= *)
(** * More on the masks *)

Lemma any_zip_left_false (l l' : list bool) :
  Forall (fun b => b = false) l -> any (zip_with andb l l') = false.
Proof.
  intros H. revert l'. induction H as [|b l Hb _ IH]; intros l'; [reflexivity|].
  destruct l' as [|b' l']; [reflexivity|].
  subst b. simpl. apply IH.
Qed.

Lemma any_zip_right_false (l l' : list bool) :
  Forall (fun b => b = false) l' -> any (zip_with andb l l') = false.
Proof.
  intros H. revert l. induction H as [|b l' Hb _ IH]; intros l;
    [destruct l; reflexivity|].
  destruct l as [|a l]; [reflexivity|].
  subst b. simpl. rewrite andb_false_r. apply IH.
Qed.

Lemma Forall_map_intro {A B} (f : A -> B) (P : B -> Prop) (l : list A) :
  Forall (fun x => P (f x)) l -> Forall P (map f l).
Proof. induction 1; simpl; constructor; auto. Qed.

(** X1.  On every frame in which the brake is never applied, braking
    aggressiveness is exactly 0.0. *)
Theorem braking_without_brake (df : DataFrame) :
  Forall (fun r => Brake r = false) (rows df) ->
  result calculate_braking_aggressiveness df = Return 0.
Proof.
  intros H. destruct df as [cols rs]. cbn [rows] in H.
  run_metric. unfold has_column. case_columns; try reflexivity.
  rewrite any_zip_left_false; [reflexivity|].
  apply Forall_map_intro, Forall_map_intro. revert H. apply Forall_impl.
  now intros r ->.
Qed.

Lemma braking_without_brake_witness :
  Forall (fun r => Brake r = false) (rows coasting_lap) /\
  result calculate_braking_aggressiveness coasting_lap = Return 0.
Proof.
  assert (H : Forall (fun r => Brake r = false) (rows coasting_lap))
    by (repeat constructor).
  split; [exact H | exact (braking_without_brake coasting_lap H)].
Defined.

(** X2.  On every frame whose throttle is never below 50, cornering
    consistency is exactly 0.0. *)
Theorem cornering_without_low_throttle (df : DataFrame) :
  Forall (fun r => (Throttle r <? 50) = false) (rows df) ->
  result calculate_cornering_consistency df = Return 0.
Proof.
  intros H. destruct df as [cols rs]. cbn [rows] in H.
  run_metric. unfold has_column. case_columns; try reflexivity.
  rewrite any_zip_left_false; [reflexivity|].
  apply Forall_map_intro, Forall_map_intro. exact H.
Qed.

Lemma cornering_without_low_throttle_witness :
  Forall (fun r => (Throttle r <? 50) = false) (rows flat_out_lap) /\
  result calculate_cornering_consistency flat_out_lap = Return 0.
Proof.
  assert (H : Forall (fun r => (Throttle r <? 50) = false) (rows flat_out_lap))
    by (repeat constructor).
  split; [exact H | exact (cornering_without_low_throttle flat_out_lap H)].
Defined.

(** The speed never changes: every first difference is 0.0. *)
Lemma constant_speed_diff (s : float) (l : list float) :
  is_finite s = true -> Forall (fun x => x = s) l ->
  Forall (fun d => (d <? 0) = false /\ (1 <? abs d) = false) (diff l).
Proof.
  intros Hs H. destruct H as [|x l Hx H]; [constructor|].
  subst x. unfold diff. cbn [diff_with].
  constructor; [split; reflexivity|].
  induction H as [|x l Hx _ IH]; simpl; [constructor|].
  subst x. rewrite (sub_diag_finite s Hs).
  constructor; [split; reflexivity|exact IH].
Qed.

(** X3.  On a lap driven at one constant finite speed there is no braking
    event and no cornering instant: both metrics are exactly 0.0. *)
Theorem constant_speed_metrics (df : DataFrame) (s : float) :
  is_finite s = true ->
  Forall (fun r => Speed r = s) (rows df) ->
  result calculate_braking_aggressiveness df = Return 0 /\
  result calculate_cornering_consistency df = Return 0.
Proof.
  intros Hs H. destruct df as [cols rs]. cbn [rows] in H.
  assert (D := constant_speed_diff s (map Speed rs) Hs (Forall_map_intro _ _ _ H)).
  split; run_metric; unfold has_column; case_columns; try reflexivity;
    (rewrite any_zip_right_false; [reflexivity|]);
    apply Forall_map_intro; revert D; apply Forall_impl; intros d [D1 D2]; assumption.
Qed.

Lemma constant_speed_metrics_witness :
  is_finite 120 = true /\
  Forall (fun r => Speed r = 120) (rows coasting_lap) /\
  result calculate_braking_aggressiveness coasting_lap = Return 0 /\
  result calculate_cornering_consistency coasting_lap = Return 0.
Proof.
  assert (Hs : is_finite 120 = true) by reflexivity.
  assert (H : Forall (fun r => Speed r = 120) (rows coasting_lap))
    by (repeat constructor).
  split; [exact Hs|]. split; [exact H|].
  exact (constant_speed_metrics coasting_lap 120 Hs H).
Defined.

(** ** One cornering instant *)

Lemma length_select_le {A} (l : list A) : forall mask,
  (length (select l mask) <= length (filter (fun b : bool => b) mask))%nat.
Proof.
  induction l as [|x l IH]; intros mask; [simpl; lia|].
  destruct mask as [|b mask]; [simpl; lia|].
  destruct b; simpl; specialize (IH mask); lia.
Qed.

Lemma any_of_count (mask : list bool) :
  (0 < count_true mask)%Z -> any mask = true.
Proof.
  unfold count_true, any. induction mask as [|b mask IH]; simpl; [lia|].
  destruct b; [reflexivity|]. exact IH.
Qed.

Lemma length_dropna_le (l : list float) : (length (dropna l) <= length l)%nat.
Proof. apply filter_length_le. Qed.

Lemma std_short (l : list float) : (length l <= 1)%nat -> std l = nan.
Proof.
  intros H. apply std_missing. pose proof (length_dropna_le l) as H'. lia.
Qed.

(** X6.  When exactly one reading is a cornering instant, cornering
    consistency is NaN: the standard deviation of a single speed. *)
Theorem single_cornering_instant (rs : list reading) :
  count_true (corner_mask_of (map Throttle rs) (map Speed rs)) = 1%Z ->
  result calculate_cornering_consistency (frame_of rs) = Return nan.
Proof.
  intros H. run_on_full_frame.
  fold (corner_mask_of (map Throttle rs) (map Speed rs)).
  assert (A : any (corner_mask_of (map Throttle rs) (map Speed rs)) = true)
    by (apply any_of_count; lia).
  rewrite A. cbn -[std select corner_mask_of].
  rewrite std_short; [reflexivity|].
  pose proof (length_select_le (map Speed rs)
                (corner_mask_of (map Throttle rs) (map Speed rs))) as L.
  unfold count_true in H. lia.
Qed.

Lemma single_cornering_instant_witness :
  count_true (corner_mask_of (map Throttle (rows single_corner_lap))
                             (map Speed (rows single_corner_lap))) = 1%Z /\
  result calculate_cornering_consistency single_corner_lap = Return nan.
Proof.
  assert (H : count_true (corner_mask_of (map Throttle (rows single_corner_lap))
                             (map Speed (rows single_corner_lap))) = 1%Z)
    by reflexivity.
  split; [exact H | exact (single_cornering_instant _ H)].
Defined.

(** ** The values behind braking aggressiveness and cornering consistency *)

Lemma any_of_select {A} (l : list A) : forall mask,
  (0 < length (select l mask))%nat -> any mask = true.
Proof.
  intros mask H. apply any_of_count. unfold count_true.
  pose proof (length_select_le l mask). lia.
Qed.

(** X15.  With at least two cornering instants, cornering consistency is a
    sample standard deviation, with Bessel's correction, of the speeds at
    the cornering instants. *)
Theorem cornering_sample_std (rs : list reading) :
  (2 <= length (dropna (corner_speeds_of rs)))%nat ->
  exists v,
    result calculate_cornering_consistency (frame_of rs) = Return v /\
    is_sample_std (dropna (corner_speeds_of rs)) v.
Proof.
  intros H. pose proof (length_dropna_le (corner_speeds_of rs)) as L.
  assert (A : any (corner_mask_of (map Throttle rs) (map Speed rs)) = true).
  { apply (any_of_select (map Speed rs)). fold (corner_speeds_of rs). lia. }
  exists (std (corner_speeds_of rs)). split; [|apply std_is_sample_std, H].
  run_on_full_frame.
  fold (corner_mask_of (map Throttle rs) (map Speed rs)).
  rewrite A. reflexivity.
Qed.

Lemma cornering_sample_std_witness :
  (2 <= length (dropna (corner_speeds_of (rows scenario_lap))))%nat /\
  exists v,
    result calculate_cornering_consistency scenario_lap = Return v /\
    is_sample_std (dropna (corner_speeds_of (rows scenario_lap))) v.
Proof.
  assert (H : (2 <= length (dropna (corner_speeds_of (rows scenario_lap))))%nat)
    by (vm_compute; lia).
  split; [exact H | exact (cornering_sample_std (rows scenario_lap) H)].
Defined.

(** X16.  With at least one braking instant, braking aggressiveness is a
    mean of the decelerations in G at the braking instants; it is NaN when
    every one of them is NaN. *)
Theorem braking_is_mean (rs : list reading) :
  any (braking_mask_of (map Brake rs) (map Speed rs)) = true ->
  match dropna (braking_g_forces rs) with
  | [] => result calculate_braking_aggressiveness (frame_of rs) = Return nan
  | present_values =>
    exists v,
      result calculate_braking_aggressiveness (frame_of rs) = Return v /\
      is_mean present_values v
  end.
Proof.
  intros A.
  assert (R : result calculate_braking_aggressiveness (frame_of rs)
              = Return (mean (braking_g_forces rs))).
  { run_on_full_frame.
    fold (braking_mask_of (map Brake rs) (map Speed rs)).
    rewrite A. reflexivity. }
  rewrite R.
  destruct (dropna (braking_g_forces rs)) as [|x xs] eqn:E.
  - now rewrite mean_missing.
  - eexists. split; [reflexivity|]. rewrite <- E. apply mean_is_mean.
    rewrite E. simpl. lia.
Qed.

Lemma braking_is_mean_witness :
  any (braking_mask_of (map Brake (rows scenario_lap))
                       (map Speed (rows scenario_lap))) = true /\
  exists v,
    result calculate_braking_aggressiveness scenario_lap = Return v /\
    is_mean (dropna (braking_g_forces (rows scenario_lap))) v.
Proof.
  assert (A : any (braking_mask_of (map Brake (rows scenario_lap))
                                   (map Speed (rows scenario_lap))) = true)
    by reflexivity.
  split; [exact A | exact (braking_is_mean (rows scenario_lap) A)].
Defined.

(* ================================================================= *)
(** * Signs of binary64 results *)

Lemma binary_round_aux_sign (s : bool) (m e : Z) (l : location) :
  (0 <= m)%Z ->
  (if s then sf_nonpos else sf_nonneg) (binary_round_aux prec emax s m e l) = true.
Proof.
  intros H. pose proof (binary_round_aux_not_nan s m e l H) as N.
  unfold binary_round_aux in *.
  destruct (shr_fexp prec emax m e l) as [mrs' e'].
  destruct (shr_fexp prec emax _ e' loc_Exact) as [mrs'' e''].
  destruct (shr_m mrs''); [destruct s; reflexivity| |congruence].
  destruct (Z.leb _ _); destruct s; reflexivity.
Qed.

Lemma of_uint63_nonneg n : sf_nonneg (Prim2SF (of_uint63 n)) = true.
Proof.
  rewrite of_uint63_spec.
  pose proof (Uint63.to_Z_bounded n) as [H _].
  destruct (Uint63.to_Z n) as [|p|p]; [reflexivity| |lia].
  simpl. unfold binary_round. destruct (shl_align _ _ _).
  apply (binary_round_aux_sign false). lia.
Qed.

Lemma of_Z_nonpos z : (z <= 0)%Z -> sf_nonpos (Prim2SF (of_Z z)) = true.
Proof.
  destruct z as [|p|p]; intros H; [reflexivity|lia|].
  unfold of_Z. rewrite FloatAxioms.opp_spec.
  pose proof (of_uint63_nonneg (Uint63.of_Z (Z.pos p))) as N.
  destruct (Prim2SF _) as [s|s| |s m e]; try discriminate; try reflexivity;
    destruct s; try discriminate; reflexivity.
Qed.

Lemma div_core_nonneg m1 e1 m2 e2 :
  (0 <= fst (fst (SFdiv_core_binary prec emax (Z.pos m1) e1 (Z.pos m2) e2)))%Z.
Proof.
  unfold SFdiv_core_binary.
  set (s := (_ - _ - _)%Z).
  set (m' := match s with Zpos _ => Z.shiftl (Z.pos m1) s | Z0 => Z.pos m1 | Zneg _ => 0%Z end).
  assert (Hm : (0 <= m')%Z).
  { unfold m'. destruct s; try lia. apply Z.shiftl_nonneg. lia. }
  pose proof (Z_div_mod m' (Z.pos m2) ltac:(lia)) as D.
  destruct (Z.div_eucl m' (Z.pos m2)) as [q r]. simpl.
  destruct D as [E [R0 R1]]. nia.
Qed.

Lemma SFdiv_nonpos_pos x m e :
  sf_nonpos x = true ->
  sf_nonpos (SF64div x (S754_finite false m e)) = true.
Proof.
  destruct x as [s|s| |s mx ex]; try discriminate.
  - reflexivity.
  - destruct s; [reflexivity|discriminate].
  - destruct s; [|discriminate]. intros _.
    unfold SF64div, SFdiv.
    pose proof (div_core_nonneg mx ex m e) as H.
    destruct (SFdiv_core_binary _ _ _ _ _ _) as [[mz ez] lz]. simpl in H.
    apply (binary_round_aux_sign true). exact H.
Qed.

Lemma ltb_zero_nonpos x : sf_nonpos (Prim2SF x) = true -> (0 <? x) = false.
Proof.
  rewrite ltb_spec. change (Prim2SF 0) with (S754_zero false).
  destruct (Prim2SF x) as [s|s| |s m e]; try discriminate; try reflexivity;
    destruct s; try discriminate; reflexivity.
Qed.

Lemma nonpositive_minutes (a b : Z) (span : option Z) :
  (a <= b)%Z -> timedelta_sub a b = Return span ->
  (0 <? scalar_total_seconds span / 60) = false.
Proof.
  intros H. unfold timedelta_sub. cbv zeta.
  destruct (a - b =? int64_min)%Z eqn:E1.
  - intros S. injection S as <-. reflexivity.
  - destruct ((int64_min <? a - b) && (a - b <=? int64_max))%Z eqn:E2;
      [|discriminate].
    intros S. injection S as <-.
    apply andb_prop in E2. destruct E2 as [E2 _].
    apply Z.ltb_lt in E2. unfold int64_min in E2.
    destruct (Z.eq_dec (a - b) 0) as [Z0|NZ].
    + rewrite Z0. reflexivity.
    + apply ltb_zero_nonpos. unfold scalar_total_seconds.
      rewrite div_spec.
      change (Prim2SF 60) with (S754_finite false 8444249301319680 (-47)).
      apply SFdiv_nonpos_pos, negative_span_seconds. lia.
Qed.

(* ================================================================= *)
(** * More on gear-shift frequency *)

Lemma changes_counted (t : list Z) : forall g,
  length (filter (fun b : bool => b)
            (map ne0 (diff_from (fun x y => Some (x - y)%Z) g t)))
  = changes_from g t.
Proof.
  induction t as [|x t IH]; intros g; [reflexivity|].
  simpl. rewrite <- IH.
  replace (x - g =? 0)%Z with (x =? g)%Z
    by (apply eq_iff_eq_true; rewrite !Z.eqb_eq; lia).
  destruct (x =? g)%Z; reflexivity.
Qed.

(** The count the code divides by is one more than the number of gear
    changes, on every lap with at least one reading. *)
Lemma gear_changes_one_more (g : Z) (t : list Z) :
  gear_changes_of (g :: t) = (1 + Z.of_nat (changes_from g t))%Z.
Proof.
  unfold gear_changes_of, count_true, diff_int.
  cbn [diff_with map ne0 filter length].
  rewrite changes_counted. lia.
Qed.

(** X4.  On every lap with at least one reading, gear-shift frequency is
    (1 + the number of readings whose gear differs from the one before)
    divided by the elapsed minutes between the first and the last reading,
    the seconds being those of the [Timedelta] (whole microseconds only);
    it is 0.0 when those minutes are not above zero, and when the span does
    not fit a [Timedelta]. *)
Theorem gear_shift_frequency_value (r : reading) (t : list reading) :
  result calculate_gear_shift_frequency (frame_of (r :: t)) =
  Return (match timedelta_sub (Time (last t r)) (Time r) with
          | Return span =>
            if 0 <? scalar_total_seconds span / 60
            then of_Z (1 + Z.of_nat (changes_from (nGear r) (map nGear t)))
                 / (scalar_total_seconds span / 60)
            else 0
          | Raise _ => 0
          end).
Proof.
  run_on_full_frame.
  cbn [map]. rewrite iloc_last, iloc_first, last_map.
  fold (gear_changes_of (nGear r :: map nGear t)).
  rewrite gear_changes_one_more.
  destruct (timedelta_sub (Time (last t r)) (Time r)) as [span|e];
    [|reflexivity].
  cbn [fst]. destruct (0 <? _); reflexivity.
Qed.

(** A span below one microsecond has no seconds: the frequency is 0.0. *)
Lemma sub_microsecond_span :
  result calculate_gear_shift_frequency
    (frame_of [mkReading 0 100 0 true 3; mkReading 999 100 0 true 4]) = Return 0.
Proof. vm_compute. reflexivity. Qed.

(** X5.  When the last timestamp is not after the first, gear-shift
    frequency is exactly 0.0, whatever the gears: the code never divides by
    a zero or negative duration. *)
Theorem gear_shift_frequency_no_time (r : reading) (t : list reading) :
  (Time (last t r) <= Time r)%Z ->
  result calculate_gear_shift_frequency (frame_of (r :: t)) = Return 0.
Proof.
  intros H. run_on_full_frame.
  cbn [map]. rewrite iloc_last, iloc_first, last_map.
  destruct (timedelta_sub (Time (last t r)) (Time r)) as [span|e] eqn:S;
    [|reflexivity].
  cbn [fst]. rewrite (nonpositive_minutes _ _ _ H S). reflexivity.
Qed.

Lemma gear_shift_frequency_no_time_witness :
  (Time (last [mkReading 0 90 10 true 4] (mkReading 0 100 0 true 3))
   <= Time (mkReading 0 100 0 true 3))%Z /\
  result calculate_gear_shift_frequency
    (frame_of [mkReading 0 100 0 true 3; mkReading 0 90 10 true 4]) = Return 0.
Proof.
  assert (H : (Time (last [mkReading 0 90 10 true 4] (mkReading 0 100 0 true 3))
               <= Time (mkReading 0 100 0 true 3))%Z) by (simpl; lia).
  split; [exact H | exact (gear_shift_frequency_no_time _ _ H)].
Defined.

(* ================================================================= *)
(** * More on profiling *)

Lemma metric_returns_value (k : metric_key) (df : DataFrame) :
  metric_of k df = (Return (value_of (result (metric_of k) df)), df).
Proof.
  destruct (metric_returns k df) as [v E].
  unfold result. rewrite E. reflexivity.
Qed.

(** X7.  The profile of a frame is made of the four metric results, each
    computed on the frame as it was handed in, and the frame is handed
    back unchanged; computing the profile never raises. *)
Theorem compute_metrics_profile (df : DataFrame) :
  compute_metrics df = (Return (profile_of df), df).
Proof.
  unfold compute_metrics, bind, profile_of.
  pose proof (metric_returns_value braking_aggressiveness df) as Hb.
  pose proof (metric_returns_value throttle_smoothness df) as Ht.
  pose proof (metric_returns_value cornering_consistency df) as Hc.
  pose proof (metric_returns_value gear_shift_frequency df) as Hg.
  cbn [metric_of] in Hb, Ht, Hc, Hg.
  rewrite Hb, Ht, Hc, Hg. reflexivity.
Qed.

(** X8.  When the driver has laps and the fastest-lap record is not empty
    and carries telemetry with at least one row and one column,
    [analyze_driver_style] returns the profile of that telemetry together
    with that lap record; it does so whatever the telemetry holds, missing
    columns included. *)
Theorem analyze_returns_profile session code d lap df :
  session code = Return d -> laps_empty d = false ->
  pick_fastest d = Return (Some lap) -> lap_empty lap = false ->
  get_telemetry lap = Return df -> df_empty df = false ->
  analyze_driver_style session code = Return (Some (profile_of df, Some lap)).
Proof.
  intros Hs Hd Hf Hl Ht He.
  unfold analyze_driver_style, get_driver_telemetry, get_driver_telemetry_body.
  rewrite Hs, Hd, Hf, Hl, Ht, He.
  pose proof (metric_returns_value braking_aggressiveness df) as Hb.
  pose proof (metric_returns_value throttle_smoothness df) as Htm.
  pose proof (metric_returns_value cornering_consistency df) as Hc.
  pose proof (metric_returns_value gear_shift_frequency df) as Hg.
  cbn [metric_of] in Hb, Htm, Hc, Hg.
  unfold compute_metrics, bind. rewrite Hb, Htm, Hc, Hg. reflexivity.
Qed.

Lemma analyze_returns_profile_witness :
  analyze_driver_style scenario_session "VER"
  = Return (Some (profile_of scenario_lap, Some (timed_lap scenario_lap))).
Proof.
  apply (analyze_returns_profile scenario_session "VER"
           (mkLaps [timed_lap scenario_lap] (Return (Some (timed_lap scenario_lap))))
           (timed_lap scenario_lap) scenario_lap); reflexivity.
Defined.

(** X9.  Whenever the [try] block of [get_driver_telemetry] raises (the
    provider fails on the laps, on the fastest lap or on the telemetry, or
    [pick_fastest()] hands back [None]), [analyze_driver_style] returns
    [None] and raises nothing. *)
Theorem analyze_after_fault session code e :
  get_driver_telemetry_body session code = Raise e ->
  analyze_driver_style session code = Return None.
Proof.
  intros H. unfold analyze_driver_style, get_driver_telemetry. now rewrite H.
Qed.

Lemma analyze_after_fault_witness :
  get_driver_telemetry_body faulty_session "VER" = Raise ProviderError /\
  analyze_driver_style faulty_session "VER" = Return None.
Proof.
  assert (H : get_driver_telemetry_body faulty_session "VER" = Raise ProviderError)
    by reflexivity.
  split; [exact H | exact (analyze_after_fault faulty_session "VER" _ H)].
Defined.

(** X10.  [analyze_driver_style] raises exactly when [get_driver_telemetry]
    took one of its two early returns: the driver has no lap, or the
    fastest-lap record is empty.  The exception is then [TypeError]. *)
Theorem analyze_raises_iff session code e :
  analyze_driver_style session code = Raise e <->
  e = TypeError /\
  exists d, session code = Return d /\
    (laps_empty d = true \/
     (laps_empty d = false /\
      exists lap, pick_fastest d = Return (Some lap) /\ lap_empty lap = true)).
Proof.
  split.
  - unfold analyze_driver_style, get_driver_telemetry, get_driver_telemetry_body.
    destruct (session code) as [d|e0]; [|discriminate].
    destruct (laps_empty d) eqn:Hd.
    + intros H. inversion H. eauto 6.
    + destruct (pick_fastest d) as [[lap|]|e1] eqn:Hf; try discriminate.
      destruct (lap_empty lap) eqn:Hl.
      * intros H. inversion H. split; [reflexivity|].
        exists d. split; [reflexivity|]. right.
        split; [exact Hd|]. exists lap. split; [exact Hf|exact Hl].
      * destruct (get_telemetry lap) as [df|e2]; [|discriminate].
        destruct (df_empty df); [discriminate|].
        destruct (compute_metrics_returns df) as [m ->]. discriminate.
  - intros [-> [d [Hs [Hd|[Hd [lap [Hf Hl]]]]]]].
    + now apply analyze_no_laps with d.
    + now apply analyze_empty_lap_record with d lap.
Qed.

Lemma analyze_raises_iff_witness :
  analyze_driver_style one_driver_session "HAM" = Raise TypeError.
Proof.
  apply (proj2 (analyze_raises_iff one_driver_session "HAM" TypeError)).
  split; [reflexivity|].
  exists (mkLaps [] (Return None)). split; [reflexivity|]. left. reflexivity.
Defined.

(* ================================================================= *)
(** * More on the comparison *)

Lemma ltb_nan x y : is_nan x = true \/ is_nan y = true -> (x <? y) = false.
Proof.
  rewrite !is_nan_spec, ltb_spec. unfold SFltb.
  destruct (Prim2SF x), (Prim2SF y); intros [H|H]; try discriminate; reflexivity.
Qed.

(** X11.  When either driver's braking value is NaN the braking leader is
    the driver of the second slot, and likewise for throttle smoothness:
    a comparison with NaN is never true, so the [else] branch is taken. *)
Theorem nan_leader_is_second (driver1 driver2 : string) (m1 m2 : Metrics) :
  (is_nan (lookup m1 braking_aggressiveness) = true \/
   is_nan (lookup m2 braking_aggressiveness) = true ->
   braking_leader (compare_drivers driver1 driver2 m1 m2) = driver2) /\
  (is_nan (lookup m1 throttle_smoothness) = true \/
   is_nan (lookup m2 throttle_smoothness) = true ->
   smooth_leader (compare_drivers driver1 driver2 m1 m2) = driver2).
Proof.
  split; intros H; simpl in *.
  - rewrite ltb_nan; [reflexivity|tauto].
  - rewrite ltb_nan; [reflexivity|tauto].
Qed.

Lemma nan_leader_is_second_witness :
  (is_nan (lookup missing_braking_profile braking_aggressiveness) = true \/
   is_nan (lookup tied_profile braking_aggressiveness) = true) /\
  braking_leader (compare_drivers "VER" "HAM" missing_braking_profile tied_profile)
    = "HAM"%string.
Proof.
  assert (H : is_nan (lookup missing_braking_profile braking_aggressiveness) = true \/
              is_nan (lookup tied_profile braking_aggressiveness) = true)
    by (left; reflexivity).
  split; [exact H|].
  exact (proj1 (nan_leader_is_second "VER" "HAM" missing_braking_profile
                  tied_profile) H).
Defined.

(* ================================================================= *)
(** * The "Analyze Drivers" step *)

Lemma analyze_raises_only_TypeError session code e :
  analyze_driver_style session code = Raise e -> e = TypeError.
Proof.
  unfold analyze_driver_style.
  destruct (get_driver_telemetry session code) as [|[df|] lap];
    [intros H; now inversion H| |discriminate].
  destruct (df_empty df); [discriminate|].
  destruct (compute_metrics_returns df) as [m ->]. discriminate.
Qed.

(** A profile always comes with its lap record. *)
Lemma analyze_lap_present session code m l :
  analyze_driver_style session code = Return (Some (m, l)) ->
  exists lap, l = Some lap.
Proof.
  unfold analyze_driver_style, get_driver_telemetry, get_driver_telemetry_body.
  destruct (session code) as [d|e0]; [|discriminate].
  destruct (laps_empty d); [discriminate|].
  destruct (pick_fastest d) as [[lap|]|e1]; try discriminate.
  destruct (lap_empty lap); [discriminate|].
  destruct (get_telemetry lap) as [df|e2]; [|discriminate].
  destruct (df_empty df); [discriminate|].
  destruct (compute_metrics_returns df) as [m' ->].
  intros H. inversion H. eauto.
Qed.

(** X12.  The comparison is shown exactly when the two selected drivers
    differ and both analyses returned a profile; it is then the comparison
    of those two profiles, first driver in the first slot, with the lap
    times of the two lap records. *)
Theorem comparison_page_iff session driver1 driver2 c t1 t2 :
  analyze_drivers session driver1 driver2 = Return (ComparisonPage c t1 t2) <->
  driver1 <> driver2 /\
  exists m1 l1 m2 l2,
    analyze_driver_style (as_session session) driver1 = Return (Some (m1, Some l1)) /\
    analyze_driver_style (as_session session) driver2 = Return (Some (m2, Some l2)) /\
    c = compare_drivers driver1 driver2 m1 m2 /\
    t1 = LapTime l1 /\ t2 = LapTime l2.
Proof.
  unfold analyze_drivers. split.
  - destruct (String.eqb_spec driver1 driver2) as [E|N]; [discriminate|].
    destruct (analyze_driver_style (as_session session) driver1)
      as [[[m1 l1]|]|e1] eqn:A1; try discriminate.
    + destruct (analyze_driver_style (as_session session) driver2)
        as [[[m2 l2]|]|e2] eqn:A2; try discriminate.
      destruct (analyze_lap_present _ _ _ _ A1) as [lap1 ->].
      destruct (analyze_lap_present _ _ _ _ A2) as [lap2 ->].
      simpl. intros H. inversion H. split; [exact N|].
      exists m1, lap1, m2, lap2. auto.
    + destruct (analyze_driver_style (as_session session) driver2)
        as [[[m2 l2]|]|e2]; discriminate.
  - intros [N [m1 [l1 [m2 [l2 [A1 [A2 [-> [-> ->]]]]]]]]].
    destruct (String.eqb_spec driver1 driver2) as [E|_]; [contradiction|].
    rewrite A1, A2. reflexivity.
Qed.

Lemma comparison_page_iff_witness :
  analyze_drivers (Some scenario_session) "VER" "HAM"
  = Return (ComparisonPage
              (compare_drivers "VER" "HAM" (profile_of scenario_lap)
                               (profile_of scenario_lap))
              (LapTime (timed_lap scenario_lap)) (LapTime (timed_lap scenario_lap))).
Proof.
  apply (proj2 (comparison_page_iff (Some scenario_session) "VER" "HAM" _ _ _)).
  split; [discriminate|].
  exists (profile_of scenario_lap), (timed_lap scenario_lap),
         (profile_of scenario_lap), (timed_lap scenario_lap).
  repeat split; vm_compute; reflexivity.
Defined.

(** X13.  After a failed load (the stored session is [None]) the step
    raises nothing: it shows the same-driver message when the selections
    coincide and the analysis-failed message otherwise. *)
Theorem analyze_drivers_without_session (driver1 driver2 : string) :
  analyze_drivers None driver1 driver2 =
  Return (if String.eqb driver1 driver2 then SameDriverError
          else AnalysisFailedError).
Proof.
  unfold analyze_drivers. destruct (String.eqb driver1 driver2); reflexivity.
Qed.

(** X14.  The step raises exactly when the two selections differ and one
    of the two analyses raises; the exception is [TypeError].  Unpacking
    the results and reading the lap times never raise. *)
Theorem analyze_drivers_raises_iff session driver1 driver2 e :
  analyze_drivers session driver1 driver2 = Raise e <->
  e = TypeError /\ driver1 <> driver2 /\
  (analyze_driver_style (as_session session) driver1 = Raise TypeError \/
   analyze_driver_style (as_session session) driver2 = Raise TypeError).
Proof.
  unfold analyze_drivers. split.
  - destruct (String.eqb_spec driver1 driver2) as [E|N]; [discriminate|].
    destruct (analyze_driver_style (as_session session) driver1)
      as [r1|e1] eqn:A1.
    + destruct (analyze_driver_style (as_session session) driver2)
        as [r2|e2] eqn:A2.
      * destruct r1 as [[m1 l1]|], r2 as [[m2 l2]|]; try discriminate.
        destruct (analyze_lap_present _ _ _ _ A1) as [lap1 ->].
        destruct (analyze_lap_present _ _ _ _ A2) as [lap2 ->].
        discriminate.
      * intros H. inversion H. subst e2.
        rewrite (analyze_raises_only_TypeError _ _ _ A2). auto.
    + intros H. inversion H. subst e1.
      rewrite (analyze_raises_only_TypeError _ _ _ A1). auto.
  - intros [-> [N [A|A]]];
      destruct (String.eqb_spec driver1 driver2) as [E|_]; try contradiction.
    + now rewrite A.
    + rewrite A.
      destruct (analyze_driver_style (as_session session) driver1)
        as [r1|e1] eqn:A1; [reflexivity|].
      now rewrite (analyze_raises_only_TypeError _ _ _ A1).
Qed.

Lemma analyze_drivers_raises_iff_witness :
  analyze_drivers (Some one_driver_session) "VER" "HAM" = Raise TypeError.
Proof.
  apply (proj2 (analyze_drivers_raises_iff (Some one_driver_session)
                  "VER" "HAM" TypeError)).
  split; [reflexivity|]. split; [discriminate|]. right. reflexivity.
Defined.
